(** * Pass prediction and notification scheduling of the satellite bot

    A shallow embedding of the core of [main.py]: the element-set lookup
    ([get_tle_for_satellite], [get_satellite]), the pass detector
    ([calculate_passes]) and the notification scheduler
    ([schedule_notification]), followed by the properties the
    specification states about them.

    Conventions of the embedding.
    - A Python [str] is the list of its Unicode code points.
    - An aware UTC [datetime] is the number of microseconds since
      0001-01-01 00:00:00, the first instant a [datetime] can hold; a
      [timedelta] is a number of microseconds (both in [Z]). Building a
      [timedelta] and subtracting it from a [datetime] raise OverflowError
      outside the ranges Python gives them, as on line 183. The window of
      [calculate_passes] is the one of the few days its callers ask for.
    - A Python number used as an angle (an [int] or a [float]) is a
      [pyfloat]: a rational, an infinity or NaN, compared the way
      IEEE 754 compares them.
    - The module globals, the TLE file on disk, the clock, the job queue
      and the logger form the record [world], threaded through every
      function that reads or writes them.
    - The skyfield library is an interface ([Skyfield]); every theorem
      holds for all its implementations. *)

From Stdlib Require Import List Sorted Arith ZArith QArith Bool Lia Ascii.
From Stdlib Require String.
Import String.StringSyntax.
Delimit Scope string_scope with string.
From Equations Require Import Equations.
Import ListNotations.
Close Scope Q_scope.
Local Open Scope nat_scope.
Local Open Scope list_scope.

Set Implicit Arguments.

(** ** Strings *)

Module PyStr.

(** A string is the list of its code points. *)
Definition pystr := list N.

(** The line boundaries of [str.splitlines]: LF, VT, FF, CR, FS, GS, RS,
    NEL, LINE SEPARATOR, PARAGRAPH SEPARATOR. *)
Definition is_linebreak (c : N) : bool :=
  match c with
  | 10 | 11 | 12 | 13 | 28 | 29 | 30 | 133 | 8232 | 8233 => true
  | _ => false
  end%N.

(** [splitlines_from cur s]: [cur] is the line being read, reversed. A CR
    immediately followed by LF is one boundary; a final line without a
    terminator is kept when it is not empty. *)
Fixpoint splitlines_from (cur s : pystr) : list pystr :=
  match s with
  | [] => match cur with [] => [] | _ => [rev cur] end
  | c :: s' =>
      if is_linebreak c then
        rev cur ::
          match c, s' with
          | 13%N, 10%N :: s'' => splitlines_from [] s''
          | _, _ => splitlines_from [] s'
          end
      else splitlines_from (c :: cur) s'
  end.

Definition splitlines (s : pystr) : list pystr := splitlines_from [] s.

(** [startswith p s]: [p] is a prefix of [s]. *)
Fixpoint startswith (p s : pystr) : bool :=
  match p, s with
  | [], _ => true
  | _ :: _, [] => false
  | a :: p', b :: s' => N.eqb a b && startswith p' s'
  end.

(** The operator [needle in hay] on strings. *)
Fixpoint contains (needle hay : pystr) : bool :=
  startswith needle hay ||
  match hay with
  | [] => false
  | _ :: hay' => contains needle hay'
  end.

(** What [in] decides: [needle] occurs somewhere inside [hay]. *)
Definition substring (needle hay : pystr) : Prop :=
  exists pre post, hay = pre ++ needle ++ post.

(** ASCII literals for examples. *)
Fixpoint of_ascii (s : String.string) : pystr :=
  match s with
  | String.EmptyString => []
  | String.String a s' => N_of_ascii a :: of_ascii s'
  end.
Arguments of_ascii s%_string.

End PyStr.
Import PyStr.

(** ** Numbers used as angles *)

Inductive pyfloat : Type :=
| FNaN
| FNegInf
| FFin (q : Q)
| FPosInf.

(** [a >= b] on Python numbers: false as soon as one side is NaN. *)
Definition float_ge (a b : pyfloat) : bool :=
  match a, b with
  | FNaN, _ | _, FNaN => false
  | _, FNegInf => true
  | FPosInf, _ => true
  | FNegInf, _ => false
  | FFin _, FPosInf => false
  | FFin x, FFin y => Qle_bool y x
  end.

(** ** Time *)

(** Microseconds since 0001-01-01 00:00:00 (an aware UTC datetime) and a
    number of microseconds (a timedelta). *)
Definition datetime := Z.
Definition timedelta := Z.

Definition timedelta_minutes (m : Z) : timedelta := (m * 60000000)%Z.
Definition timedelta_days (d : Z) : timedelta := (d * 86400000000)%Z.

(** [timedelta.total_seconds()]; its sign is the sign of the timedelta. *)
Definition total_seconds (d : timedelta) : Q := Qmake d 1000000.

(** ** Errors and results *)

(** A Python exception, identified by a code the library chooses. *)
Inductive exn : Type :=
| Exn (code : Z)
| IndexError
| OverflowError.

(** The error messages returned as the last component of a result tuple.
    Every one of them is a non-empty string, so [if error:] holds exactly
    when the component is not [None]. *)
Inductive error_msg : Type :=
| TleFileNotFound            (* "TLE-файл не найден. Обновите его командой /update_tle." *)
| IncompleteTle              (* "Неполные данные TLE для спутника." *)
| SatelliteNotFound          (* "Спутник не найден в TLE-файле." *)
| SatelliteCreateError (e : exn) (* f"Ошибка создания спутника: {e}" *)
| PassCalcError (e : exn).   (* f"Ошибка расчёта пролётов: {e}" *)

(** A call either returns a value or lets an exception escape. *)
Inductive outcome (A : Type) : Type :=
| Return (a : A)
| Raise (e : exn).
Arguments Return {A} a.
Arguments Raise {A} e.

(** ** Time, continued *)

(** The first instant a [datetime] cannot hold: 0001-01-01 00:00:00 plus
    the 3652059 days up to the end of the year 9999. *)
Definition datetime_max : Z := 315537897600000000.

(** The instant is one a [datetime] can hold. *)
Definition datetime_ok (t : Z) : bool :=
  ((0 <=? t) && (t <? datetime_max))%Z.

(** The duration is one a [timedelta] can hold: its whole number of days,
    rounded down, has a magnitude of at most 999999999. *)
Definition timedelta_ok (d : Z) : bool :=
  ((-999999999 <=? d / 86400000000) && (d / 86400000000 <=? 999999999))%Z.

(** [datetime.timedelta(minutes=m)]. *)
Definition timedelta_of_minutes (m : Z) : outcome timedelta :=
  if timedelta_ok (timedelta_minutes m) then Return (timedelta_minutes m)
  else Raise OverflowError.

(** [t - d], a [datetime] minus a [timedelta]. *)
Definition datetime_sub (t : datetime) (d : timedelta) : outcome datetime :=
  if datetime_ok (t - d) then Return (t - d)%Z else Raise OverflowError.

(** ** The state the functions run in *)

Inductive log_level := DEBUG | INFO | WARNING | ERROR.

Inductive log_message :=
| NotifyTimePassed.          (* "Время уведомления уже прошло." *)

Record log_entry := LogEntry { level : log_level; message : log_message }.

(** A job of the job queue: [run_once(pass_notification, delay,
    context={"chat_id": chat_id})]. *)
Record job := Job { job_delay : Q; job_chat_id : Z }.

Record world := World {
  (* module globals: configuration *)
  TLE_URL : pystr;
  SAT_NAME : pystr;
  GROUND_STATION_LAT : pyfloat;
  GROUND_STATION_LON : pyfloat;
  GROUND_STATION_ELEVATION : pyfloat;
  ALTITUDE_THRESHOLD : pyfloat;
  NOTIFY_MINUTES : Z;
  (* module globals: TLE *)
  tle_content : option pystr;
  last_tle_update : option datetime;
  (* the content of TLE_FILENAME, None when it cannot be opened or read *)
  tle_file : option pystr;
  (* datetime.datetime.utcnow() *)
  utcnow : datetime;
  (* load("de421.bsp"): the exception it raises, if any *)
  ephemeris_failure : option exn;
  (* context.job_queue and the module logger *)
  job_queue : list job;
  log : list log_entry
}.

Definition set_tle_content (c : option pystr) (w : world) : world :=
  World (TLE_URL w) (SAT_NAME w) (GROUND_STATION_LAT w) (GROUND_STATION_LON w)
        (GROUND_STATION_ELEVATION w) (ALTITUDE_THRESHOLD w) (NOTIFY_MINUTES w)
        c (last_tle_update w) (tle_file w) (utcnow w) (ephemeris_failure w)
        (job_queue w) (log w).

Definition set_ALTITUDE_THRESHOLD (t : pyfloat) (w : world) : world :=
  World (TLE_URL w) (SAT_NAME w) (GROUND_STATION_LAT w) (GROUND_STATION_LON w)
        (GROUND_STATION_ELEVATION w) t (NOTIFY_MINUTES w)
        (tle_content w) (last_tle_update w) (tle_file w) (utcnow w)
        (ephemeris_failure w) (job_queue w) (log w).

Definition add_job (j : job) (w : world) : world :=
  World (TLE_URL w) (SAT_NAME w) (GROUND_STATION_LAT w) (GROUND_STATION_LON w)
        (GROUND_STATION_ELEVATION w) (ALTITUDE_THRESHOLD w) (NOTIFY_MINUTES w)
        (tle_content w) (last_tle_update w) (tle_file w) (utcnow w)
        (ephemeris_failure w) (job_queue w ++ [j]) (log w).

Definition add_log (e : log_entry) (w : world) : world :=
  World (TLE_URL w) (SAT_NAME w) (GROUND_STATION_LAT w) (GROUND_STATION_LON w)
        (GROUND_STATION_ELEVATION w) (ALTITUDE_THRESHOLD w) (NOTIFY_MINUTES w)
        (tle_content w) (last_tle_update w) (tle_file w) (utcnow w)
        (ephemeris_failure w) (job_queue w) (log w ++ [e]).

(** The configuration values of a world. *)
Definition configuration (w : world) :=
  (TLE_URL w, SAT_NAME w, GROUND_STATION_LAT w, GROUND_STATION_LON w,
   GROUND_STATION_ELEVATION w, ALTITUDE_THRESHOLD w, NOTIFY_MINUTES w).

(** ** Element-set lookup *)

(** The tuple returned by the lookup: [(name_line, tle_line1, tle_line2,
    None)] is [inl] of the three lines, [(None, None, None, error)] is
    [inr error]. *)
Definition tle_result : Type := (pystr * pystr * pystr) + error_msg.

(** [lines[k]], read only where the guard [i + 2 < len(lines)] holds. *)
Definition line_at (lines : list pystr) (k : nat) : pystr := nth k lines [].

(** The loop [for i, line in enumerate(lines)]: [rest] is what remains to
    be visited, [i] the index of its head in [lines]. *)
Fixpoint find_block (name : pystr) (lines : list pystr) (i : nat)
    (rest : list pystr) : tle_result :=
  match rest with
  | [] => inr SatelliteNotFound
  | line :: rest' =>
      if contains name line then
        if i + 2 <? length lines then
          inl (line_at lines i, line_at lines (i + 1), line_at lines (i + 2))
        else inr IncompleteTle
      else find_block name lines (S i) rest'
  end.

(** The first part of [get_tle_for_satellite]: the text the lookup works
    on. When [tle_content] is [None] the file is read and its content is
    stored in the global; [None] is returned when that read fails. *)
Definition load_tle_content (w : world) : option (pystr * world) :=
  match tle_content w with
  | Some text => Some (text, w)
  | None =>
      match tle_file w with
      | Some text => Some (text, set_tle_content (Some text) w)
      | None => None
      end
  end.

Definition get_tle_for_satellite (w : world) : tle_result * world :=
  match load_tle_content w with
  | None => (inr TleFileNotFound, w)
  | Some (text, w') =>
      let lines := splitlines text in
      (find_block (SAT_NAME w') lines 0 lines, w')
  end.

(** ** The skyfield library *)

(** [Topos(latitude_degrees=..., longitude_degrees=..., elevation_m=...)]. *)
Record Topos := {
  latitude_degrees : pyfloat;
  longitude_degrees : pyfloat;
  elevation_m : pyfloat
}.

(** What the bot uses of skyfield. [EarthSatellite] and [find_events] can
    raise; [find_events] returns the two arrays [t_events] and [events]. *)
Class Skyfield := {
  satellite : Type;
  Time : Type;
  (* EarthSatellite(tle_line1, tle_line2, SAT_NAME, ts) *)
  EarthSatellite : pystr -> pystr -> pystr -> outcome satellite;
  (* sat.find_events(station, ts.utc(t0), ts.utc(t1), altitude_degrees=0) *)
  find_events : satellite -> Topos -> datetime -> datetime ->
                outcome (list Time * list Z);
  (* (sat - station).at(t).altaz()[0].degrees *)
  altaz_degrees : satellite -> Topos -> Time -> pyfloat;
  (* t.utc_datetime() *)
  utc_datetime : Time -> datetime
}.

(** The dictionary appended to [passes]. *)
Record Pass := {
  rise : datetime;
  culmination : datetime;
  set : datetime;
  max_elevation : pyfloat
}.

Section Detector.

Context {sky : Skyfield}.

(** ** Building the satellite *)

(** [(sat, None)] is [inl sat] and [(None, error)] is [inr error]. *)
Definition get_satellite (w : world) : (satellite + error_msg) * world :=
  let '(r, w') := get_tle_for_satellite w in
  match r with
  | inr error => (inr error, w')
  | inl (name_line, tle_line1, tle_line2) =>
      match EarthSatellite tle_line1 tle_line2 (SAT_NAME w') with
      | Return sat => (inl sat, w')
      | Raise e => (inr (SatelliteCreateError e), w')
      end
  end.

(** ** The walk over the events *)

Section Walk.

Variable sat : satellite.
Variable station : Topos.
Variable t_events : list Time.
Variable events : list Z.
Variable threshold : pyfloat.

(** [events[k] == v], for [k] in range. *)
Definition event_is (k : nat) (v : Z) : bool :=
  match nth_error events k with
  | Some e => Z.eqb e v
  | None => false
  end.

(** The condition of the [if]: rise, culmination and set at [i], [i+1],
    [i+2]. *)
Definition is_triple (i : nat) : bool :=
  event_is i 0 && (i + 2 <? length events) &&
  event_is (i + 1) 1 && event_is (i + 2) 2.

(** The body of the [if] for the instants [r], [c], [s] read at [i],
    [i+1], [i+2]. *)
Definition record_pass (r c s : Time) (passes : list Pass) : list Pass :=
  let rise_time := utc_datetime r in
  let culm_time := utc_datetime c in
  let set_time := utc_datetime s in
  let max_elevation := altaz_degrees sat station c in
  if float_ge max_elevation threshold then
    passes ++ [Build_Pass rise_time culm_time set_time max_elevation]
  else passes.

(** The [while i < len(events)] loop, from index [i] with the list
    [passes] built so far. Reading [t_events] out of range raises. *)
Equations? collect (i : nat) (passes : list Pass) : outcome (list Pass)
  by wf (length events - i) lt :=
collect i passes :=
  match lt_dec i (length events) with
  | right _ => Return passes
  | left _ =>
      if is_triple i then
        match nth_error t_events i, nth_error t_events (i + 1),
              nth_error t_events (i + 2) with
        | Some r, Some c, Some s =>
            collect (i + 3) (record_pass r c s passes)
        | _, _, _ => Raise IndexError
        end
      else collect (i + 1) passes
  end.
Proof. all: lia. Qed.

End Walk.

(** ** The detector *)

(** [(passes, None)] is [inl passes] and [(None, error)] is [inr error]. *)
Definition calculate_passes (next_days : Z) (w : world)
    : outcome (list Pass + error_msg) * world :=
  let '(r, w1) := get_satellite w in
  match r with
  | inr error => (Return (inr error), w1)
  | inl sat =>
      let station := {| latitude_degrees := GROUND_STATION_LAT w1;
                        longitude_degrees := GROUND_STATION_LON w1;
                        elevation_m := GROUND_STATION_ELEVATION w1 |} in
      match ephemeris_failure w1 with
      | Some e => (Raise e, w1)
      | None =>
          let now := utcnow w1 in
          let t0 := now in
          let t1 := (now + timedelta_days next_days)%Z in
          match find_events sat station t0 t1 with
          | Raise e => (Return (inr (PassCalcError e)), w1)
          | Return (t_events, events) =>
              match collect sat station t_events events
                            (ALTITUDE_THRESHOLD w1) 0 [] with
              | Return passes => (Return (inl passes), w1)
              | Raise e => (Raise e, w1)
              end
          end
      end
  end.

End Detector.

(** ** The notification scheduler *)

(** [a > b] on rationals. *)
Definition Qgt_bool (a b : Q) : bool := negb (Qle_bool a b).

(** The function returns [None] ([Return tt]) or lets the OverflowError
    of line 183 escape, before anything is written. *)
Definition schedule_notification (pass_time : datetime) (chat_id : Z)
    (w : world) : outcome unit * world :=
  match timedelta_of_minutes (NOTIFY_MINUTES w) with
  | Raise e => (Raise e, w)
  | Return lead =>
      match datetime_sub pass_time lead with
      | Raise e => (Raise e, w)
      | Return notify_time =>
          let now := utcnow w in
          let delay := total_seconds (notify_time - now)%Z in
          if Qgt_bool delay 0 then (Return tt, add_job (Job delay chat_id) w)
          else (Return tt, add_log (LogEntry INFO NotifyTimePassed) w)
      end
  end.

(** * Vocabulary of the properties *)

(** [i] is the index of the first line of [lines] that contains [name]. *)
Definition first_match (name : pystr) (lines : list pystr) (i : nat) : Prop :=
  i < length lines /\
  substring name (line_at lines i) /\
  forall j, j < i -> ~ substring name (line_at lines j).

(** The element text the lookup works on: the stored one, or the content
    of the file when none is stored. *)
Definition element_text (w : world) (text : pystr) : Prop :=
  tle_content w = Some text \/
  (tle_content w = None /\ tle_file w = Some text).

(** The element text stored after a lookup: the one already stored, or
    else what the file holds (nothing when it cannot be read). *)
Definition stored_after (w : world) : option pystr :=
  match tle_content w with
  | Some text => Some text
  | None => tle_file w
  end.

(** Rise, culmination and set at the indices [i], [i+1], [i+2]. *)
Definition complete_triple (events : list Z) (i : nat) : Prop :=
  nth_error events i = Some 0%Z /\
  nth_error events (i + 1) = Some 1%Z /\
  nth_error events (i + 2) = Some 2%Z.

(** The times of a list increase with the index. *)
Definition increasing (l : list datetime) : Prop :=
  forall a b x y, a < b -> nth_error l a = Some x -> nth_error l b = Some y ->
                  (x < y)%Z.

(** The station the detector observes from. *)
Definition station_of (w : world) : Topos :=
  {| latitude_degrees := GROUND_STATION_LAT w;
     longitude_degrees := GROUND_STATION_LON w;
     elevation_m := GROUND_STATION_ELEVATION w |}.

(** A lead of [m] minutes is a duration a timedelta can hold, and
    [pass_time] less that lead is an instant a datetime can hold. *)
Definition notification_time_ok (pass_time : datetime) (m : Z) : Prop :=
  timedelta_ok (m * 60000000) = true /\
  datetime_ok (pass_time - m * 60000000) = true.

Section Vocabulary.

Context {sky : Skyfield}.

(** The pass the walk builds from the instants [r], [c], [s]. *)
Definition pass_of (sat : satellite) (station : Topos) (r c s : Time)
    : Pass :=
  {| rise := utc_datetime r;
     culmination := utc_datetime c;
     set := utc_datetime s;
     max_elevation := altaz_degrees sat station c |}.

(** [p] is the pass of the complete triple that starts at index [i]. *)
Definition pass_of_triple (sat : satellite) (station : Topos)
    (t_events : list Time) (events : list Z) (i : nat) (p : Pass) : Prop :=
  complete_triple events i /\
  exists r c s,
    nth_error t_events i = Some r /\
    nth_error t_events (i + 1) = Some c /\
    nth_error t_events (i + 2) = Some s /\
    p = pass_of sat station r c s.

(** The events the library reports for the window of [next_days] days
    that starts now. *)
Definition events_found (next_days : Z) (w : world) (sat : satellite)
    (t_events : list Time) (events : list Z) : Prop :=
  find_events sat (station_of w) (utcnow w)
              (utcnow w + timedelta_days next_days)%Z
    = Return (t_events, events).

(** The library reports its events in chronological order. *)
Definition chronological_events : Prop :=
  forall sat station t0 t1 t_events events,
    find_events sat station t0 t1 = Return (t_events, events) ->
    increasing (map utc_datetime t_events).

(** No element set can be built: no element text is stored and the file
    cannot be read; or no line of the text contains the tracked name; or
    fewer than two lines follow the first line that contains it; or the
    library rejects the two element lines. *)
Inductive element_set_unavailable (w : world) : Prop :=
| no_element_text :
    tle_content w = None -> tle_file w = None ->
    element_set_unavailable w
| name_absent (text : pystr) :
    element_text w text ->
    (forall line, In line (splitlines text) -> ~ substring (SAT_NAME w) line) ->
    element_set_unavailable w
| record_incomplete (text : pystr) (i : nat) :
    element_text w text ->
    first_match (SAT_NAME w) (splitlines text) i ->
    length (splitlines text) <= i + 2 ->
    element_set_unavailable w
| record_invalid (text : pystr) (i : nat) (e : exn) :
    element_text w text ->
    first_match (SAT_NAME w) (splitlines text) i ->
    i + 2 < length (splitlines text) ->
    EarthSatellite (line_at (splitlines text) (i + 1))
                   (line_at (splitlines text) (i + 2)) (SAT_NAME w) = Raise e ->
    element_set_unavailable w.

End Vocabulary.

(** * Data of the examples *)

(** The globals as the module initialises them: the default settings, no
    element text, no TLE file, an empty job queue and an empty log. *)
Definition default_world : world :=
  {| TLE_URL := of_ascii "http://celestrak.org/NORAD/elements/satnogs.txt";
     SAT_NAME := of_ascii "CUBESX-HSE 3";
     GROUND_STATION_LAT := FFin (Qmake 557558 10000);
     GROUND_STATION_LON := FFin (Qmake 376173 10000);
     GROUND_STATION_ELEVATION := FFin (Qmake 144 1);
     ALTITUDE_THRESHOLD := FFin (Qmake 15 1);
     NOTIFY_MINUTES := 15%Z;
     tle_content := None;
     last_tle_update := None;
     tle_file := None;
     utcnow := 0%Z;
     ephemeris_failure := None;
     job_queue := [];
     log := [] |}.

(** LF as a one-character string. *)
Definition nl : pystr := [10%N].

(** One record for another satellite followed by the record of the
    tracked one. *)
Definition text_complete : pystr :=
  of_ascii "ISS (ZARYA)" ++ nl ++ of_ascii "1 25544U" ++ nl ++
  of_ascii "2 25544" ++ nl ++
  of_ascii "CUBESX-HSE 3" ++ nl ++ of_ascii "1 57172U" ++ nl ++
  of_ascii "2 57172" ++ nl.

(** The text cut after the first element line of the tracked record. *)
Definition text_truncated : pystr :=
  of_ascii "ISS (ZARYA)" ++ nl ++ of_ascii "1 25544U" ++ nl ++
  of_ascii "2 25544" ++ nl ++
  of_ascii "CUBESX-HSE 3" ++ nl ++ of_ascii "1 57172U".

(** A text without the tracked name. *)
Definition text_other : pystr :=
  of_ascii "ISS (ZARYA)" ++ nl ++ of_ascii "1 25544U" ++ nl ++
  of_ascii "2 25544" ++ nl.

(** The name line followed by two empty lines: a record the library
    rejects. *)
Definition text_empty_lines : pystr := of_ascii "CUBESX-HSE 3" ++ nl ++ nl ++ nl.

(** A test double of skyfield driven by a table: an instant of the table
    carries its elevation, [find_events] returns the table whatever the
    window, and a satellite is built from any two non-empty lines. *)
Definition table_sky (t_events : list (datetime * pyfloat)) (events : list Z)
    : Skyfield :=
  {| satellite := unit;
     Time := datetime * pyfloat;
     EarthSatellite := fun l1 l2 _ =>
       match l1, l2 with
       | _ :: _, _ :: _ => Return tt
       | _, _ => Raise (Exn 1)
       end;
     find_events := fun _ _ _ _ => Return (t_events, events);
     altaz_degrees := fun _ _ t => snd t;
     utc_datetime := fun t => fst t |}.

(** No text in memory, the complete text on disk. *)
Definition world_unloaded : world :=
  {| TLE_URL := TLE_URL default_world;
     SAT_NAME := SAT_NAME default_world;
     GROUND_STATION_LAT := GROUND_STATION_LAT default_world;
     GROUND_STATION_LON := GROUND_STATION_LON default_world;
     GROUND_STATION_ELEVATION := GROUND_STATION_ELEVATION default_world;
     ALTITUDE_THRESHOLD := ALTITUDE_THRESHOLD default_world;
     NOTIFY_MINUTES := NOTIFY_MINUTES default_world;
     tle_content := None;
     last_tle_update := None;
     tle_file := Some text_complete;
     utcnow := 0%Z;
     ephemeris_failure := None;
     job_queue := [];
     log := [] |}.

(** The text in memory. *)
Definition world_loaded : world :=
  set_tle_content (Some text_complete) default_world.

(** Three passes within three hours, culminating at 40, 20 and 5
    degrees; instants in microseconds. *)
Definition sample_times : list (datetime * pyfloat) :=
  [ (600000000, FFin (Qmake 0 1));
    (900000000, FFin (Qmake 40 1));
    (1200000000, FFin (Qmake 0 1));
    (6000000000, FFin (Qmake 0 1));
    (6300000000, FFin (Qmake 20 1));
    (6600000000, FFin (Qmake 0 1));
    (11400000000, FFin (Qmake 0 1));
    (11700000000, FFin (Qmake 5 1));
    (12000000000, FFin (Qmake 0 1)) ]%Z.

Definition sample_events : list Z := [0; 1; 2; 0; 1; 2; 0; 1; 2]%Z.

Definition sample_sky : Skyfield := table_sky sample_times sample_events.

Definition pass_40 : Pass :=
  {| rise := 600000000; culmination := 900000000; set := 1200000000;
     max_elevation := FFin (Qmake 40 1) |}%Z.

Definition pass_20 : Pass :=
  {| rise := 6000000000; culmination := 6300000000; set := 6600000000;
     max_elevation := FFin (Qmake 20 1) |}%Z.

(** The object is up when the window opens, makes one whole pass, and
    is rising again when the window closes. *)
Definition boundary_times : list (datetime * pyfloat) :=
  [ (300000000, FFin (Qmake 30 1));
    (600000000, FFin (Qmake 0 1));
    (6000000000, FFin (Qmake 0 1));
    (6300000000, FFin (Qmake 20 1));
    (6600000000, FFin (Qmake 0 1));
    (11400000000, FFin (Qmake 0 1)) ]%Z.

Definition boundary_events : list Z := [1; 2; 0; 1; 2; 0]%Z.

Definition boundary_sky : Skyfield := table_sky boundary_times boundary_events.

(** The object is up when the window opens and sets for good. *)
Definition setting_sky : Skyfield :=
  table_sky [ (300000000, FFin (Qmake 10 1));
              (600000000, FFin (Qmake 0 1)) ]%Z
            [1; 2]%Z.

(** * Further vocabulary *)

(** No character of [s] is a line boundary. *)
Definition single_line (s : pystr) : Prop :=
  Forall (fun c => is_linebreak c = false) s.

(** Every job of the queue is due in the future of its registration. *)
Definition positive_delays (w : world) : Prop :=
  Forall (fun j => (0 < job_delay j)%Q) (job_queue w).

(** What remains to be split after the line boundary [c] that precedes
    [s]: a LF that follows a CR belongs to the same boundary. *)
Definition after_break (c : N) (s : pystr) : pystr :=
  match c, s with
  | 13%N, 10%N :: s' => s'
  | _, _ => s
  end.

(** The text in memory and the name of the satellite erased. *)
Definition world_nameless : world :=
  {| TLE_URL := TLE_URL default_world;
     SAT_NAME := [];
     GROUND_STATION_LAT := GROUND_STATION_LAT default_world;
     GROUND_STATION_LON := GROUND_STATION_LON default_world;
     GROUND_STATION_ELEVATION := GROUND_STATION_ELEVATION default_world;
     ALTITUDE_THRESHOLD := ALTITUDE_THRESHOLD default_world;
     NOTIFY_MINUTES := NOTIFY_MINUTES default_world;
     tle_content := Some text_complete;
     last_tle_update := None;
     tle_file := None;
     utcnow := 0%Z;
     ephemeris_failure := None;
     job_queue := [];
     log := [] |}.

(** * The rest of the bot *)


(** ** Writing the globals *)

Definition set_TLE_URL (u : pystr) (w : world) : world :=
  World u (SAT_NAME w) (GROUND_STATION_LAT w) (GROUND_STATION_LON w)
        (GROUND_STATION_ELEVATION w) (ALTITUDE_THRESHOLD w) (NOTIFY_MINUTES w)
        (tle_content w) (last_tle_update w) (tle_file w) (utcnow w)
        (ephemeris_failure w) (job_queue w) (log w).

Definition set_SAT_NAME (n : pystr) (w : world) : world :=
  World (TLE_URL w) n (GROUND_STATION_LAT w) (GROUND_STATION_LON w)
        (GROUND_STATION_ELEVATION w) (ALTITUDE_THRESHOLD w) (NOTIFY_MINUTES w)
        (tle_content w) (last_tle_update w) (tle_file w) (utcnow w)
        (ephemeris_failure w) (job_queue w) (log w).

Definition set_GROUND_STATION_LAT (x : pyfloat) (w : world) : world :=
  World (TLE_URL w) (SAT_NAME w) x (GROUND_STATION_LON w)
        (GROUND_STATION_ELEVATION w) (ALTITUDE_THRESHOLD w) (NOTIFY_MINUTES w)
        (tle_content w) (last_tle_update w) (tle_file w) (utcnow w)
        (ephemeris_failure w) (job_queue w) (log w).

Definition set_GROUND_STATION_LON (x : pyfloat) (w : world) : world :=
  World (TLE_URL w) (SAT_NAME w) (GROUND_STATION_LAT w) x
        (GROUND_STATION_ELEVATION w) (ALTITUDE_THRESHOLD w) (NOTIFY_MINUTES w)
        (tle_content w) (last_tle_update w) (tle_file w) (utcnow w)
        (ephemeris_failure w) (job_queue w) (log w).

Definition set_GROUND_STATION_ELEVATION (x : pyfloat) (w : world) : world :=
  World (TLE_URL w) (SAT_NAME w) (GROUND_STATION_LAT w) (GROUND_STATION_LON w)
        x (ALTITUDE_THRESHOLD w) (NOTIFY_MINUTES w)
        (tle_content w) (last_tle_update w) (tle_file w) (utcnow w)
        (ephemeris_failure w) (job_queue w) (log w).

Definition set_NOTIFY_MINUTES (m : Z) (w : world) : world :=
  World (TLE_URL w) (SAT_NAME w) (GROUND_STATION_LAT w) (GROUND_STATION_LON w)
        (GROUND_STATION_ELEVATION w) (ALTITUDE_THRESHOLD w) m
        (tle_content w) (last_tle_update w) (tle_file w) (utcnow w)
        (ephemeris_failure w) (job_queue w) (log w).

Definition set_last_tle_update (t : option datetime) (w : world) : world :=
  World (TLE_URL w) (SAT_NAME w) (GROUND_STATION_LAT w) (GROUND_STATION_LON w)
        (GROUND_STATION_ELEVATION w) (ALTITUDE_THRESHOLD w) (NOTIFY_MINUTES w)
        (tle_content w) t (tle_file w) (utcnow w)
        (ephemeris_failure w) (job_queue w) (log w).

Definition set_tle_file (f : option pystr) (w : world) : world :=
  World (TLE_URL w) (SAT_NAME w) (GROUND_STATION_LAT w) (GROUND_STATION_LON w)
        (GROUND_STATION_ELEVATION w) (ALTITUDE_THRESHOLD w) (NOTIFY_MINUTES w)
        (tle_content w) (last_tle_update w) f (utcnow w)
        (ephemeris_failure w) (job_queue w) (log w).

(** The clock moves on. *)
Definition set_utcnow (t : datetime) (w : world) : world :=
  World (TLE_URL w) (SAT_NAME w) (GROUND_STATION_LAT w) (GROUND_STATION_LON w)
        (GROUND_STATION_ELEVATION w) (ALTITUDE_THRESHOLD w) (NOTIFY_MINUTES w)
        (tle_content w) (last_tle_update w) (tle_file w) t
        (ephemeris_failure w) (job_queue w) (log w).

(** ** Repeated requests *)

(** With a lead of [m] minutes and the clock at [now], a reminder for a
    pass that rises at [pass_time] can be registered and is still ahead. *)
Definition reminder_due (pass_time : datetime) (m : Z) (now : datetime)
    : bool :=
  timedelta_ok (m * 60000000) && datetime_ok (pass_time - m * 60000000) &&
  (now <? pass_time - m * 60000000)%Z.

(** The world after a reminder is asked for while the clock shows [t]. *)
Definition request_at (pass_time : datetime) (chat_id : Z) (w : world)
    (t : datetime) : world :=
  snd (schedule_notification pass_time chat_id (set_utcnow t w)).

(** The same reminder asked for at each of the instants [clocks] in turn. *)
Definition repeated_requests (pass_time : datetime) (chat_id : Z)
    (clocks : list datetime) (w : world) : world :=
  fold_left (request_at pass_time chat_id) clocks w.

(** ** Refreshing the element text *)

(** What a later [f.read()] in text mode returns of a text written to a
    file: the line endings CR LF and CR come back as LF (the file is
    written with LF kept as it is, as on a POSIX system). *)
Fixpoint universal_newlines (s : pystr) : pystr :=
  match s with
  | [] => []
  | 13%N :: 10%N :: s'' => 10%N :: universal_newlines s''
  | 13%N :: s' => 10%N :: universal_newlines s'
  | c :: s' => c :: universal_newlines s'
  end.

(** What [open(TLE_FILENAME, "w")] and [f.write(tle_content)] do: the text
    is written, or an exception is raised and the file is left with
    [on_disk] (its content for a later read, [None] when unreadable). *)
Inductive write_outcome : Type :=
| Written
| WriteFailed (e : exn) (on_disk : option pystr).

(** The second component of the pair [update_tle] returns. *)
Inductive update_msg : Type :=
| TleFileUpdated               (* "Файл TLE обновлён." *)
| DownloadStatus (status_code : Z)
                               (* f"Ошибка скачивания TLE: статус {...}" *)
| UpdateException (e : exn).   (* f"Ошибка: {e}" *)

(** [update_tle()]. [response] is what [requests.get(TLE_URL)] does: it
    raises, or returns a response with its [status_code] and [text];
    [write] is what writing the file does. *)
Definition update_tle (response : outcome (Z * pystr)) (write : write_outcome)
    (w : world) : (bool * update_msg) * world :=
  match response with
  | Raise e => ((false, UpdateException e), w)
  | Return (status_code, text) =>
      if (status_code =? 200)%Z then
        let w1 := set_tle_content (Some text) w in
        match write with
        | WriteFailed e on_disk =>
            ((false, UpdateException e), set_tle_file on_disk w1)
        | Written =>
            let w2 := set_tle_file (Some (universal_newlines text)) w1 in
            let w3 := set_last_tle_update (Some (utcnow w2)) w2 in
            ((true, TleFileUpdated), w3)
        end
      else ((false, DownloadStatus status_code), w)
  end.

(** The two worlds differ at most by the stored text and the file. *)
Definition same_but_text (w v : world) : Prop :=
  set_tle_content None (set_tle_file None w) =
  set_tle_content None (set_tle_file None v).

(** A text with CR LF line endings, as a server sends it. *)
Definition text_crlf : pystr :=
  of_ascii "CUBESX-HSE 3" ++ [13%N; 10%N] ++
  of_ascii "1 57172U" ++ [13%N; 10%N] ++
  of_ascii "2 57172" ++ [13%N; 10%N].

(** ** Strings, continued *)

(** [str.isspace] on one character: the white space [str.strip] removes. *)
Definition isspace (c : N) : bool :=
  ((9 <=? c) && (c <=? 13) || (28 <=? c) && (c <=? 32) ||
   (c =? 133) || (c =? 160) || (c =? 5760) ||
   (8192 <=? c) && (c <=? 8202) ||
   (c =? 8232) || (c =? 8233) || (c =? 8239) || (c =? 8287) ||
   (c =? 12288))%N.

Fixpoint lstrip (s : pystr) : pystr :=
  match s with
  | [] => []
  | c :: s' => if isspace c then lstrip s' else s
  end.

Definition rstrip (s : pystr) : pystr := rev (lstrip (rev s)).

(** [s.strip()]. *)
Definition strip (s : pystr) : pystr := rstrip (lstrip s).

(** [split_from sep cur s]: [cur] is the part being read, reversed. *)
Fixpoint split_from (sep : N) (cur s : pystr) : list pystr :=
  match s with
  | [] => [rev cur]
  | c :: s' =>
      if (c =? sep)%N then rev cur :: split_from sep [] s'
      else split_from sep (c :: cur) s'
  end.

(** [a == b] on strings. *)
Fixpoint eqb_str (a b : pystr) : bool :=
  match a, b with
  | [], [] => true
  | x :: a', y :: b' => (x =? y)%N && eqb_str a' b'
  | _, _ => false
  end.

(** [s.split(",")]. *)
Definition split_comma (s : pystr) : list pystr := split_from 44 [] s.

(** ** Python builtins and the Telegram API *)

(** [float(s)] and [int(s)] on a string: [None] when they raise
    ValueError. *)
Class Builtins := {
  float_of_str : pystr -> option pyfloat;
  int_of_str : pystr -> option Z
}.

(** The ValueError the builtins raise; the handlers catch it with
    [except Exception] and never look at it. *)
Definition ValueError : exn := Exn 0.

(** The settings a user can change. *)
Inductive setting : Type :=
| SatName | StationCoords | StationElev | AltThreshold | NotifyMinutes
| TleUrl.

(** The values [get_settings_text()] prints. *)
Definition settings : Type :=
  (pystr * pystr * pyfloat * pyfloat * pyfloat * pyfloat * Z)%type.

(** The messages the bot sends, with the data their text is built from. *)
Inductive bot_message : Type :=
| Welcome (updated : option datetime)     (* the text of /start *)
| ErrorText (error : error_msg)           (* "Ошибка: " + error *)
| NoPassesFound                           (* "Сеансов не найдено ..." *)
| NextPassText (p : Pass)                 (* "Следующий сеанс: ..." *)
| ThreeDayText (passes : list Pass)       (* "Сеансы на 3 дня: ..." *)
| UpdateResult (success : bool) (m : update_msg)
| SettingsHint                            (* "Введите /settings ..." *)
| SettingsHeader                          (* "Настройки:" *)
| SettingsText (c : settings)             (* get_settings_text() *)
| Prompt (what : setting)                 (* "Введите ..." *)
| SettingsSaved (c : settings)            (* "Настройки сохранены.\n" + ... *)
| Updated (what : setting) (c : settings) (* "... обновлено.\n" + ... *)
| BadFormat (what : setting)              (* "Неверный формат. ..." *)
| ChooseAction                            (* "Выберите действие:" *)
| SettingsCancelled                       (* "Настройка отменена." *)
| Reminder (chat_id : Z) (minutes : Z) (name : pystr)
                                          (* "Напоминаю: через ..." *)
| CallbackAnswer.                         (* query.answer() *)

(** What the network does to the calls of the Telegram API, in the order
    in which the bot makes them: [delivery n] is [None] when the call
    number [n] goes through, the exception it raises otherwise. *)
Class Telegram := {
  delivery : nat -> option exn
}.

(** The states of the settings conversation: [range(7)] and
    [ConversationHandler.END]. *)
Inductive conv_state : Type :=
| SETTING_CHOICE | SET_SAT_NAME | SET_STATION_COORDS | SET_STATION_ELEV
| SET_ALT_THRESHOLD | SET_NOTIFY_MINUTES | SET_TLE_URL | END.

Definition state_code (s : conv_state) : Z :=
  match s with
  | SETTING_CHOICE => 0
  | SET_SAT_NAME => 1
  | SET_STATION_COORDS => 2
  | SET_STATION_ELEV => 3
  | SET_ALT_THRESHOLD => 4
  | SET_NOTIFY_MINUTES => 5
  | SET_TLE_URL => 6
  | END => -1
  end%Z.

(** ** Handlers *)

(** A handler runs on the world, on the list of the messages sent so far
    and on the number of calls of the Telegram API made so far; it returns
    a value or lets an exception escape, and what it wrote before the
    exception stays written. *)
Record hstate := {
  hworld : world;
  sent : list bot_message;
  api_calls : nat
}.

Definition handler (A : Type) : Type := hstate -> outcome A * hstate.

Definition ret {A : Type} (a : A) : handler A := fun s => (Return a, s).

Definition raise {A : Type} (e : exn) : handler A := fun s => (Raise e, s).

Definition bind {A B : Type} (m : handler A) (k : A -> handler B)
    : handler B :=
  fun s =>
    match m s with
    | (Return a, s') => k a s'
    | (Raise e, s') => (Raise e, s')
    end.

Notation "x <- m ;; k" := (bind m (fun x => k))
  (at level 61, m at next level, right associativity).
Notation "m ;; k" := (bind m (fun _ => k))
  (at level 61, right associativity).

(** [try: body except Exception: except]. *)
Definition try_except {A : Type} (body except : handler A) : handler A :=
  fun s =>
    match body s with
    | (Return a, s') => (Return a, s')
    | (Raise _, s') => except s'
    end.

Definition get_world : handler world := fun s => (Return (hworld s), s).

Definition modify (f : world -> world) : handler unit :=
  fun s =>
    (Return tt,
     {| hworld := f (hworld s); sent := sent s; api_calls := api_calls s |}).

(** The value of a parsed string, or ValueError. *)
Definition parsed {A : Type} (x : option A) : handler A :=
  match x with
  | Some a => ret a
  | None => raise ValueError
  end.

Section Handlers.

Context {builtins : Builtins} {telegram : Telegram}.

(** [reply_text], [edit_message_text], [send_message], [answer]: one more
    call of the API, which goes through or raises. *)
Definition send (m : bot_message) : handler unit :=
  fun s =>
    match delivery (api_calls s) with
    | None =>
        (Return tt,
         {| hworld := hworld s; sent := sent s ++ [m];
            api_calls := S (api_calls s) |})
    | Some e =>
        (Raise e,
         {| hworld := hworld s; sent := sent s;
            api_calls := S (api_calls s) |})
    end.

(** *** The settings conversation *)

Definition set_sat_name (text : pystr) : handler conv_state :=
  modify (set_SAT_NAME (strip text));;
  w <- get_world;;
  send (Updated SatName (configuration w));;
  send ChooseAction;;
  ret SETTING_CHOICE.

(** The value of a [try] block is [None] when control leaves it by its
    end, and the state returned when the [except] clause returns. *)
Definition set_station_coords (text : pystr) : handler conv_state :=
  let text := strip text in
  r <- try_except
         (match split_comma text with
          | [lat_str; lon_str] =>
              lat <- parsed (float_of_str (strip lat_str));;
              modify (set_GROUND_STATION_LAT lat);;
              lon <- parsed (float_of_str (strip lon_str));;
              modify (set_GROUND_STATION_LON lon);;
              w <- get_world;;
              send (Updated StationCoords (configuration w));;
              ret None
          | _ => raise ValueError
          end)
         (send (BadFormat StationCoords);;
          ret (Some SET_STATION_COORDS));;
  match r with
  | Some state => ret state
  | None => send ChooseAction;; ret SETTING_CHOICE
  end.

Definition set_station_elev (text : pystr) : handler conv_state :=
  r <- try_except
         (x <- parsed (float_of_str (strip text));;
          modify (set_GROUND_STATION_ELEVATION x);;
          w <- get_world;;
          send (Updated StationElev (configuration w));;
          ret None)
         (send (BadFormat StationElev);;
          ret (Some SET_STATION_ELEV));;
  match r with
  | Some state => ret state
  | None => send ChooseAction;; ret SETTING_CHOICE
  end.

Definition set_alt_threshold (text : pystr) : handler conv_state :=
  r <- try_except
         (x <- parsed (float_of_str (strip text));;
          modify (set_ALTITUDE_THRESHOLD x);;
          w <- get_world;;
          send (Updated AltThreshold (configuration w));;
          ret None)
         (send (BadFormat AltThreshold);;
          ret (Some SET_ALT_THRESHOLD));;
  match r with
  | Some state => ret state
  | None => send ChooseAction;; ret SETTING_CHOICE
  end.

Definition set_notify_minutes (text : pystr) : handler conv_state :=
  r <- try_except
         (m <- parsed (int_of_str (strip text));;
          modify (set_NOTIFY_MINUTES m);;
          w <- get_world;;
          send (Updated NotifyMinutes (configuration w));;
          ret None)
         (send (BadFormat NotifyMinutes);;
          ret (Some SET_NOTIFY_MINUTES));;
  match r with
  | Some state => ret state
  | None => send ChooseAction;; ret SETTING_CHOICE
  end.

Definition set_tle_url (text : pystr) : handler conv_state :=
  let url := strip text in
  if startswith (of_ascii "http://") url
     || startswith (of_ascii "https://") url then
    modify (set_TLE_URL url);;
    w <- get_world;;
    send (Updated TleUrl (configuration w));;
    send ChooseAction;;
    ret SETTING_CHOICE
  else
    send (BadFormat TleUrl);;
    ret SET_TLE_URL.

Definition settings_start : handler conv_state :=
  send SettingsHeader;;
  w <- get_world;;
  send (SettingsText (configuration w));;
  ret SETTING_CHOICE.

(** [None] is the value of a call that ends without [return]. *)
Definition settings_button (data : pystr) : handler (option conv_state) :=
  send CallbackAnswer;;
  if eqb_str data (of_ascii "set_sat_name") then
    send (Prompt SatName);; ret (Some SET_SAT_NAME)
  else if eqb_str data (of_ascii "set_station_coords") then
    send (Prompt StationCoords);; ret (Some SET_STATION_COORDS)
  else if eqb_str data (of_ascii "set_station_elev") then
    send (Prompt StationElev);; ret (Some SET_STATION_ELEV)
  else if eqb_str data (of_ascii "set_alt_threshold") then
    send (Prompt AltThreshold);; ret (Some SET_ALT_THRESHOLD)
  else if eqb_str data (of_ascii "set_notify_minutes") then
    send (Prompt NotifyMinutes);; ret (Some SET_NOTIFY_MINUTES)
  else if eqb_str data (of_ascii "set_tle_url") then
    send (Prompt TleUrl);; ret (Some SET_TLE_URL)
  else if eqb_str data (of_ascii "done") then
    w <- get_world;;
    send (SettingsSaved (configuration w));; ret (Some END)
  else ret None.

Definition settings_cancel : handler conv_state :=
  send SettingsCancelled;;
  ret END.

(** *** Reminders *)

(** The job of the queue fires: [job] is [context.job]. *)
Definition pass_notification (j : job) : handler unit :=
  w <- get_world;;
  send (Reminder (job_chat_id j) (NOTIFY_MINUTES w) (SAT_NAME w)).

(** *** Commands and buttons *)

Context {sky : Skyfield}.

(** [calculate_passes(next_days=...)] called from a handler. *)
Definition predict (next_days : Z) : handler (list Pass + error_msg) :=
  fun s =>
    let '(r, w') := calculate_passes next_days (hworld s) in
    (r, {| hworld := w'; sent := sent s; api_calls := api_calls s |}).

(** [schedule_notification(context, pass_time, chat_id)] called from a
    handler; [later] is what the clock shows by then. *)
Definition remind (pass_time : datetime) (chat_id : Z) (later : datetime)
    : handler unit :=
  modify (set_utcnow later);;
  fun s =>
    let '(r, w') := schedule_notification pass_time chat_id (hworld s) in
    (r, {| hworld := w'; sent := sent s; api_calls := api_calls s |}).

(** [update_tle()] called from a handler. *)
Definition refresh (response : outcome (Z * pystr)) (write : write_outcome)
    : handler (bool * update_msg) :=
  fun s =>
    let '(r, w') := update_tle response write (hworld s) in
    (Return r, {| hworld := w'; sent := sent s; api_calls := api_calls s |}).

Definition start : handler unit :=
  w <- get_world;;
  send (Welcome (last_tle_update w)).

Definition next_pass_command (chat_id : Z) (later : datetime)
    : handler unit :=
  r <- predict 3;;
  match r with
  | inr error => send (ErrorText error)
  | inl [] => send NoPassesFound
  | inl (next_pass :: _) =>
      send (NextPassText next_pass);;
      remind (rise next_pass) chat_id later
  end.

Definition three_day_command : handler unit :=
  r <- predict 3;;
  match r with
  | inr error => send (ErrorText error)
  | inl [] => send NoPassesFound
  | inl passes => send (ThreeDayText passes)
  end.

Definition update_tle_command (response : outcome (Z * pystr))
    (write : write_outcome) : handler unit :=
  r <- refresh response write;;
  send (UpdateResult (fst r) (snd r)).

Definition button_handler (data : pystr) (chat_id : Z) (later : datetime)
    (response : outcome (Z * pystr)) (write : write_outcome)
    : handler unit :=
  send CallbackAnswer;;
  if eqb_str data (of_ascii "next_pass") then
    r <- predict 3;;
    match r with
    | inr error => send (ErrorText error)
    | inl [] => send NoPassesFound
    | inl (next_pass :: _) =>
        send (NextPassText next_pass);;
        remind (rise next_pass) chat_id later
    end
  else if eqb_str data (of_ascii "three_day_passes") then
    r <- predict 3;;
    match r with
    | inr error => send (ErrorText error)
    | inl [] => send NoPassesFound
    | inl passes => send (ThreeDayText passes)
    end
  else if eqb_str data (of_ascii "update_tle") then
    r <- refresh response write;;
    send (UpdateResult (fst r) (snd r))
  else if eqb_str data (of_ascii "settings") then
    send SettingsHint
  else if eqb_str data (of_ascii "back_to_main") then
    w <- get_world;;
    send (Welcome (last_tle_update w))
  else ret tt.

End Handlers.

(** The URL names the scheme of a web address. *)
Definition has_scheme (url : pystr) : Prop :=
  exists rest, url = of_ascii "http://" ++ rest \/
               url = of_ascii "https://" ++ rest.

(** Every character of [s] is white space. *)
Definition blank (s : pystr) : Prop := Forall (fun c => isspace c = true) s.

(** ** The bot as a whole *)

(** What can happen to the bot: the refresh at start-up, a command, a
    button, a step of the settings conversation, a job that fires. Every
    one carries what the outside world contributes to it. *)
Inductive action : Type :=
| StartUp (response : outcome (Z * pystr)) (write : write_outcome)
| Start
| NextPassCommand (chat_id : Z) (later : datetime)
| ThreeDayCommand
| UpdateTleCommand (response : outcome (Z * pystr)) (write : write_outcome)
| Button (data : pystr) (chat_id : Z) (later : datetime)
         (response : outcome (Z * pystr)) (write : write_outcome)
| SettingsStart
| SettingsButton (data : pystr)
| SettingsCancel
| SetSatName (text : pystr)
| SetStationCoords (text : pystr)
| SetStationElev (text : pystr)
| SetAltThreshold (text : pystr)
| SetNotifyMinutes (text : pystr)
| SetTleUrl (text : pystr)
| Fire (j : job).

Section Bot.

Context {builtins : Builtins} {telegram : Telegram} {sky : Skyfield}.

(** The state an action leaves, whether its handler returns or raises. *)
Definition perform (a : action) (s : hstate) : hstate :=
  match a with
  | StartUp response write => snd (refresh response write s)
  | Start => snd (start s)
  | NextPassCommand chat_id later => snd (next_pass_command chat_id later s)
  | ThreeDayCommand => snd (three_day_command s)
  | UpdateTleCommand response write =>
      snd (update_tle_command response write s)
  | Button data chat_id later response write =>
      snd (button_handler data chat_id later response write s)
  | SettingsStart => snd (settings_start s)
  | SettingsButton data => snd (settings_button data s)
  | SettingsCancel => snd (settings_cancel s)
  | SetSatName text => snd (set_sat_name text s)
  | SetStationCoords text => snd (set_station_coords text s)
  | SetStationElev text => snd (set_station_elev text s)
  | SetAltThreshold text => snd (set_alt_threshold text s)
  | SetNotifyMinutes text => snd (set_notify_minutes text s)
  | SetTleUrl text => snd (set_tle_url text s)
  | Fire j => snd (pass_notification j s)
  end.

(** The state after a history of actions. *)
Definition run (history : list action) (s : hstate) : hstate :=
  fold_left (fun s a => perform a s) history s.

End Bot.

(** What stays true of the world: the element source is a web address,
    no queued reminder was already due when it was registered, and a date
    of last refresh is shown only when an element text is in memory. *)
Definition well_kept (w : world) : Prop :=
  has_scheme (TLE_URL w) /\
  positive_delays w /\
  (last_tle_update w <> None -> tle_content w <> None).

(** The handler keeps the property [P] of the world, however it ends. *)
Definition preserves (P : world -> Prop) {A : Type} (h : handler A) : Prop :=
  forall s, P (hworld s) -> P (hworld (snd (h s))).

(** Test doubles of the builtins and of Telegram. Only plain decimal
    numerals parse; every call of the API goes through, or the first one
    is lost. *)
Fixpoint digits_from (acc : Z) (s : pystr) : option Z :=
  match s with
  | [] => Some acc
  | c :: s' =>
      if ((48 <=? c) && (c <=? 57))%N
      then digits_from (acc * 10 + Z.of_N (c - 48)) s'
      else None
  end.

Definition decimal (s : pystr) : option Z :=
  match s with
  | [] => None
  | _ :: _ => digits_from 0 s
  end.

Definition decimal_builtins : Builtins :=
  {| float_of_str := fun s =>
       match decimal s with
       | Some z => Some (FFin (inject_Z z))
       | None => None
       end;
     int_of_str := decimal |}.

Definition all_delivered : Telegram := {| delivery := fun _ => None |}.

Definition first_call_lost : Telegram :=
  {| delivery := fun n =>
       match n with
       | 0 => Some (Exn 5)
       | S _ => None
       end |}.

(** The bot as it starts, nothing sent yet. *)
Definition initial_state : hstate :=
  {| hworld := default_world; sent := []; api_calls := 0 |}.

Definition loaded_state : hstate :=
  {| hworld := world_loaded; sent := []; api_calls := 0 |}.

(** The text in memory and a lead of five minutes. *)
Definition prompt_state : hstate :=
  {| hworld := set_NOTIFY_MINUTES 5%Z world_loaded; sent := [];
     api_calls := 0 |}.

(** The afternoon of 2026-11-04, and a pass that rises one hour later. *)
Definition an_afternoon : datetime := 63929400000000000%Z.

Definition a_rise : datetime := 63929403600000000%Z.

(** The settings after a user has typed a lead of ten thousand million
    minutes, forward or backward; [set_notify_minutes] accepts both. *)
Definition world_long_lead : world :=
  set_NOTIFY_MINUTES 10000000000%Z (set_utcnow an_afternoon default_world).

Definition world_long_negative_lead : world :=
  set_NOTIFY_MINUTES (-10000000000)%Z (set_utcnow an_afternoon default_world).

(** * Properties *)

(** ** Strings *)

Lemma startswith_spec (p s : pystr) :
  startswith p s = true <-> exists post, s = p ++ post.
Proof.
  revert s. induction p as [|a p IH]; intros s; simpl.
  - split; [intros _; exists s; reflexivity | reflexivity].
  - destruct s as [|b s].
    + split; [discriminate | intros [post H]; discriminate].
    + rewrite andb_true_iff, N.eqb_eq, IH. split.
      * intros [-> [post ->]]. exists post. reflexivity.
      * intros [post H]. injection H as -> ->. split; eauto.
Qed.

Lemma contains_spec (needle hay : pystr) :
  contains needle hay = true <-> substring needle hay.
Proof.
  unfold substring. induction hay as [|b hay IH]; simpl.
  - rewrite orb_false_r, startswith_spec. split.
    + intros [post H]. exists [], post. exact H.
    + intros [pre [post H]]. destruct pre; [exists post; exact H|discriminate].
  - rewrite orb_true_iff, startswith_spec, IH. split.
    + intros [[post H] | [pre [post H]]].
      * exists [], post. exact H.
      * exists (b :: pre), post. simpl. rewrite H. reflexivity.
    + intros [pre [post H]]. destruct pre as [|c pre].
      * left. exists post. exact H.
      * right. injection H as _ H. exists pre, post. exact H.
Qed.

Lemma contains_false (needle hay : pystr) :
  contains needle hay = false <-> ~ substring needle hay.
Proof.
  rewrite <- contains_spec. destruct (contains needle hay); split; intros H;
    try reflexivity; try discriminate; try (intros K; discriminate).
  exfalso. apply H. reflexivity.
Qed.

(** ** Element-set lookup *)

Lemma skipn_line_at (lines : list pystr) (i : nat) :
  i < length lines -> skipn i lines = line_at lines i :: skipn (S i) lines.
Proof.
  revert i. induction lines as [|l lines IH]; intros i Hi; simpl in Hi.
  - lia.
  - destruct i as [|i]; [reflexivity|].
    simpl. apply IH. lia.
Qed.

(** The loop stops at the first line that contains the name. *)
Lemma find_block_first (name : pystr) (lines : list pystr) (d i : nat) :
  i + d < length lines ->
  (forall j, i <= j < i + d -> contains name (line_at lines j) = false) ->
  contains name (line_at lines (i + d)) = true ->
  find_block name lines i (skipn i lines) =
    if i + d + 2 <? length lines then
      inl (line_at lines (i + d), line_at lines (i + d + 1),
           line_at lines (i + d + 2))
    else inr IncompleteTle.
Proof.
  revert i. induction d as [|d IH]; intros i Hlt Hbefore Hat.
  - rewrite Nat.add_0_r in *. rewrite skipn_line_at by lia. simpl.
    rewrite Hat. reflexivity.
  - rewrite skipn_line_at by lia. simpl.
    rewrite (Hbefore i) by lia.
    replace (i + S d) with (S i + d) in * by lia.
    apply IH; [lia | intros j Hj; apply Hbefore; lia | exact Hat].
Qed.

(** The loop runs to the end when no line contains the name. *)
Lemma find_block_absent (name : pystr) (lines : list pystr) (n i : nat) :
  length lines = i + n ->
  (forall j, i <= j < length lines -> contains name (line_at lines j) = false) ->
  find_block name lines i (skipn i lines) = inr SatelliteNotFound.
Proof.
  revert i. induction n as [|n IH]; intros i Hlen Hnone.
  - rewrite skipn_all2 by lia. reflexivity.
  - rewrite skipn_line_at by lia. simpl.
    rewrite (Hnone i) by lia. apply IH; [lia | intros j Hj; apply Hnone; lia].
Qed.

Lemma element_text_load (w : world) (text : pystr) :
  element_text w text ->
  exists w', load_tle_content w = Some (text, w') /\ SAT_NAME w' = SAT_NAME w.
Proof.
  unfold load_tle_content. intros [H | [H1 H2]].
  - rewrite H. eauto.
  - rewrite H1, H2. eauto.
Qed.

(** The lookup is the loop run over the lines of the element text. *)
Lemma get_tle_for_satellite_lines (w : world) (text : pystr) :
  element_text w text ->
  fst (get_tle_for_satellite w) =
    find_block (SAT_NAME w) (splitlines text) 0 (splitlines text).
Proof.
  intros Htext. destruct (element_text_load Htext) as [w' [Hload Hname]].
  unfold get_tle_for_satellite. rewrite Hload. simpl.
  rewrite Hname. reflexivity.
Qed.

Lemma find_block_first_match (name : pystr) (lines : list pystr) (i : nat) :
  first_match name lines i ->
  find_block name lines 0 lines =
    if i + 2 <? length lines then
      inl (line_at lines i, line_at lines (i + 1), line_at lines (i + 2))
    else inr IncompleteTle.
Proof.
  intros [Hi [Hat Hbefore]].
  change (find_block name lines 0 lines)
    with (find_block name lines 0 (skipn 0 lines)).
  rewrite (@find_block_first name lines i 0); simpl; try lia.
  - reflexivity.
  - intros j Hj. apply contains_false, Hbefore. lia.
  - apply contains_spec, Hat.
Qed.

Lemma find_block_no_match (name : pystr) (lines : list pystr) :
  (forall line, In line lines -> ~ substring name line) ->
  find_block name lines 0 lines = inr SatelliteNotFound.
Proof.
  intros Hnone.
  change (find_block name lines 0 lines)
    with (find_block name lines 0 (skipn 0 lines)).
  apply (@find_block_absent name lines (length lines) 0); [reflexivity |].
  intros j Hj. apply contains_false, Hnone. unfold line_at. apply nth_In. lia.
Qed.

(** C3. For every element text, the lookup selects the first line, in line
    order, that contains the tracked identifier as a substring and returns
    it with the two lines that follow; it fails with the incomplete-data
    error when fewer than two lines follow that line, and with the
    not-found error when no line contains the identifier. *)
Theorem get_tle_for_satellite_first_match (w : world) (text : pystr) :
  element_text w text ->
  let lines := splitlines text in
  let result := fst (get_tle_for_satellite w) in
  (forall i, first_match (SAT_NAME w) lines i -> i + 2 < length lines ->
     result = inl (line_at lines i, line_at lines (i + 1),
                   line_at lines (i + 2))) /\
  (forall i, first_match (SAT_NAME w) lines i -> length lines <= i + 2 ->
     result = inr IncompleteTle) /\
  ((forall line, In line lines -> ~ substring (SAT_NAME w) line) ->
     result = inr SatelliteNotFound).
Proof.
  intros Htext lines result.
  assert (Hres : result = find_block (SAT_NAME w) lines 0 lines)
    by (apply get_tle_for_satellite_lines; exact Htext).
  repeat split.
  - intros i Hm Hlen. rewrite Hres, (find_block_first_match Hm).
    destruct (Nat.ltb_spec (i + 2) (length lines)); [reflexivity | lia].
  - intros i Hm Hlen. rewrite Hres, (find_block_first_match Hm).
    destruct (Nat.ltb_spec (i + 2) (length lines)); [lia | reflexivity].
  - intros Hnone. rewrite Hres. apply find_block_no_match, Hnone.
Qed.

Lemma get_tle_for_satellite_first_match_witness :
  fst (get_tle_for_satellite (set_tle_content (Some text_complete) default_world))
    = inl (of_ascii "CUBESX-HSE 3", of_ascii "1 57172U", of_ascii "2 57172") /\
  fst (get_tle_for_satellite (set_tle_content (Some text_truncated) default_world))
    = inr IncompleteTle /\
  fst (get_tle_for_satellite (set_tle_content (Some text_other) default_world))
    = inr SatelliteNotFound.
Proof.
  split; [| split].
  - refine (proj1 (@get_tle_for_satellite_first_match
                     (set_tle_content (Some text_complete) default_world)
                     text_complete (or_introl eq_refl)) 3 _ _).
    + split; [vm_compute; lia |]. split.
      * apply contains_spec. vm_compute. reflexivity.
      * intros j Hj. apply contains_false.
        destruct j as [|[|[|j]]]; [reflexivity | reflexivity | reflexivity | lia].
    + vm_compute. lia.
  - refine (proj1 (proj2 (@get_tle_for_satellite_first_match
                     (set_tle_content (Some text_truncated) default_world)
                     text_truncated (or_introl eq_refl))) 3 _ _).
    + split; [vm_compute; lia |]. split.
      * apply contains_spec. vm_compute. reflexivity.
      * intros j Hj. apply contains_false.
        destruct j as [|[|[|j]]]; [reflexivity | reflexivity | reflexivity | lia].
    + vm_compute. lia.
  - refine (proj2 (proj2 (@get_tle_for_satellite_first_match
                     (set_tle_content (Some text_other) default_world)
                     text_other (or_introl eq_refl))) _).
    intros line Hin. apply contains_false.
    vm_compute in Hin.
    destruct Hin as [<- | [<- | [<- | []]]]; reflexivity.
Defined.

(** ** What a lookup or a prediction writes *)

Lemma set_tle_content_same (w : world) :
  set_tle_content (tle_content w) w = w.
Proof. destruct w; reflexivity. Qed.

Lemma get_tle_for_satellite_world (w : world) :
  snd (get_tle_for_satellite w) = set_tle_content (stored_after w) w.
Proof.
  unfold get_tle_for_satellite, load_tle_content, stored_after.
  destruct w as [? ? ? ? ? ? ? content ? file ? ? ? ?]; simpl.
  destruct content, file; reflexivity.
Qed.

Section Frame.

Context {sky : Skyfield}.

Lemma get_satellite_world (w : world) :
  snd (get_satellite w) = set_tle_content (stored_after w) w.
Proof.
  unfold get_satellite. rewrite <- get_tle_for_satellite_world.
  destruct (get_tle_for_satellite w) as [[[[name l1] l2] | error] w'];
    simpl; [destruct (EarthSatellite l1 l2 (SAT_NAME w')) |]; reflexivity.
Qed.

Lemma calculate_passes_world (next_days : Z) (w : world) :
  snd (calculate_passes next_days w) = set_tle_content (stored_after w) w.
Proof.
  unfold calculate_passes. rewrite <- get_satellite_world.
  destruct (get_satellite w) as [[sat | error] w1]; simpl; [| reflexivity].
  destruct (ephemeris_failure w1); [reflexivity |].
  destruct (find_events _ _ _ _) as [[t_events events] | e]; [| reflexivity].
  destruct (collect _ _ _ _ _ _ _); reflexivity.
Qed.

(** C9, as the code has it. A lookup or a prediction leaves every
    configuration value unchanged, and writes nothing at all when an
    element text is already stored (or when the file cannot be read); when
    none is stored, the call stores the content of the TLE file as the
    element text, and that is its only write. *)
Theorem lookup_and_detection_frame (next_days : Z) (w : world) :
  let w1 := snd (get_tle_for_satellite w) in
  let w2 := snd (calculate_passes next_days w) in
  (configuration w1 = configuration w /\ configuration w2 = configuration w) /\
  (tle_content w <> None -> w1 = w /\ w2 = w) /\
  (tle_content w = None ->
     w1 = set_tle_content (tle_file w) w /\
     w2 = set_tle_content (tle_file w) w).
Proof.
  cbv zeta. rewrite get_tle_for_satellite_world, calculate_passes_world.
  unfold stored_after. split; [| split].
  - split; destruct (tle_content w); reflexivity.
  - intros Hstored. destruct (tle_content w) eqn:E; [| congruence].
    rewrite <- E, set_tle_content_same. split; reflexivity.
  - intros Hnone. rewrite Hnone. split; reflexivity.
Qed.

End Frame.

Lemma lookup_and_detection_frame_witness :
  snd (get_tle_for_satellite world_loaded) = world_loaded /\
  snd (@calculate_passes (table_sky [] []) 3 world_loaded) = world_loaded /\
  tle_content (snd (get_tle_for_satellite world_unloaded))
    = Some text_complete /\
  tle_content (snd (@calculate_passes (table_sky [] []) 3 world_unloaded))
    = Some text_complete.
Proof.
  pose proof (@lookup_and_detection_frame (table_sky [] []) 3 world_loaded)
    as [_ [Hloaded _]].
  pose proof (@lookup_and_detection_frame (table_sky [] []) 3 world_unloaded)
    as [_ [_ Hunloaded]].
  destruct (Hloaded ltac:(discriminate)) as [H1 H2].
  destruct (Hunloaded eq_refl) as [H3 H4].
  split; [exact H1 |]. split; [exact H2 |].
  split; [rewrite H3 | rewrite H4]; reflexivity.
Defined.

(** C9, as stated, fails: with no text in memory and a readable file, the
    lookup and the prediction both overwrite the stored element text. *)
Lemma lookup_writes_tle_content :
  tle_content (snd (get_tle_for_satellite world_unloaded))
    <> tle_content world_unloaded /\
  tle_content (snd (@calculate_passes (table_sky [] []) 3 world_unloaded))
    <> tle_content world_unloaded.
Proof.
  rewrite get_tle_for_satellite_world, calculate_passes_world.
  split; discriminate.
Qed.

(** ** The notification scheduler *)

Lemma Qgt_bool_total_seconds (d : timedelta) :
  Qgt_bool (total_seconds d) 0 = true <-> (0 < d)%Z.
Proof.
  unfold Qgt_bool, total_seconds.
  rewrite negb_true_iff, <- not_true_iff_false, Qle_bool_iff.
  unfold Qle. simpl. lia.
Qed.

(** What the scheduler does when the notification time is representable. *)
Lemma schedule_notification_in_range (pass_time : datetime) (chat_id : Z)
    (w : world) :
  notification_time_ok pass_time (NOTIFY_MINUTES w) ->
  let fire := (pass_time - NOTIFY_MINUTES w * 60000000)%Z in
  schedule_notification pass_time chat_id w =
    if (utcnow w <? fire)%Z then
      (Return tt,
       add_job (Job (total_seconds (fire - utcnow w)%Z) chat_id) w)
    else (Return tt, add_log (LogEntry INFO NotifyTimePassed) w).
Proof.
  intros [Hlead Hfire]. cbv zeta.
  unfold schedule_notification, timedelta_of_minutes, datetime_sub,
    timedelta_minutes.
  rewrite Hlead, Hfire.
  destruct (Qgt_bool _ 0) eqn:E.
  - apply Qgt_bool_total_seconds in E.
    destruct (Z.ltb_spec (utcnow w) (pass_time - NOTIFY_MINUTES w * 60000000));
      [reflexivity | lia].
  - destruct (Z.ltb_spec (utcnow w) (pass_time - NOTIFY_MINUTES w * 60000000))
      as [Hlt |]; [| reflexivity].
    assert (Qgt_bool (total_seconds
              (pass_time - NOTIFY_MINUTES w * 60000000 - utcnow w)%Z) 0 = true)
      by (apply Qgt_bool_total_seconds; lia).
    congruence.
Qed.

(** What it does when it is not: OverflowError, and nothing written. *)
Lemma schedule_notification_out_of_range (pass_time : datetime) (chat_id : Z)
    (w : world) :
  ~ notification_time_ok pass_time (NOTIFY_MINUTES w) ->
  schedule_notification pass_time chat_id w = (Raise OverflowError, w).
Proof.
  intros Hno.
  unfold schedule_notification, timedelta_of_minutes, datetime_sub,
    timedelta_minutes.
  destruct (timedelta_ok (NOTIFY_MINUTES w * 60000000)) eqn:Hlead;
    [| reflexivity].
  destruct (datetime_ok (pass_time - NOTIFY_MINUTES w * 60000000)) eqn:Hfire;
    [| reflexivity].
  exfalso. apply Hno. split; assumption.
Qed.

(** C2, as the code has it. When the lead is a duration a timedelta can
    hold and [fire = pass_time - NOTIFY_MINUTES] minutes is an instant a
    datetime can hold, the scheduler returns normally; it registers a
    one-shot job if and only if [fire > now], delayed by [fire - now], with
    nothing logged; when [fire <= now] no job is created, and the skip is
    one entry of level INFO in the log. *)
Theorem schedule_notification_iff (pass_time : datetime) (chat_id : Z)
    (w : world) :
  notification_time_ok pass_time (NOTIFY_MINUTES w) ->
  let fire := (pass_time - NOTIFY_MINUTES w * 60000000)%Z in
  let now := utcnow w in
  let w' := snd (schedule_notification pass_time chat_id w) in
  fst (schedule_notification pass_time chat_id w) = Return tt /\
  ((fire > now)%Z <-> exists j, job_queue w' = job_queue w ++ [j]) /\
  ((fire > now)%Z ->
     w' = add_job (Job (total_seconds (fire - now)%Z) chat_id) w) /\
  ((fire <= now)%Z ->
     w' = add_log (LogEntry INFO NotifyTimePassed) w /\
     job_queue w' = job_queue w).
Proof.
  intros Hok. cbv zeta.
  rewrite (@schedule_notification_in_range pass_time chat_id w Hok).
  cbv zeta.
  destruct (Z.ltb_spec (utcnow w) (pass_time - NOTIFY_MINUTES w * 60000000))
    as [Hlt | Hge]; cbn [fst snd].
  - split; [reflexivity |]. split; [split |].
    + intros _. eexists. reflexivity.
    + intros _. lia.
    + split; [intros _; reflexivity | intros H; lia].
  - split; [reflexivity |]. split; [split |].
    + intros H. lia.
    + intros [j Hj]. simpl in Hj.
      apply (f_equal (@length job)) in Hj. rewrite length_app in Hj.
      simpl in Hj. lia.
    + split; [intros H; lia | intros _; split; reflexivity].
Qed.

Lemma schedule_notification_iff_witness :
  (* a pass in one hour: the reminder is due in 45 minutes *)
  snd (schedule_notification 3600000000%Z 42%Z default_world)
    = add_job (Job (total_seconds 2700000000%Z) 42%Z) default_world /\
  (* a pass in exactly 15 minutes: the reminder is due now, and skipped *)
  snd (schedule_notification 900000000%Z 42%Z default_world)
    = add_log (LogEntry INFO NotifyTimePassed) default_world.
Proof.
  split.
  - apply (proj1 (proj2 (proj2
             (@schedule_notification_iff 3600000000%Z 42%Z default_world
                (conj eq_refl eq_refl))))).
    vm_compute. reflexivity.
  - apply (proj2 (proj2 (proj2
             (@schedule_notification_iff 900000000%Z 42%Z default_world
                (conj eq_refl eq_refl))))).
    vm_compute. discriminate.
Defined.

(** C2, as stated, fails for a lead that [datetime] cannot subtract. With
    a lead of ten thousand million minutes the notification time is long
    past, yet the call is no informational skip: it raises OverflowError
    and logs nothing. With the same lead backward the notification time is
    ahead, yet no job is registered. *)
Lemma schedule_notification_overflow :
  ((a_rise - NOTIFY_MINUTES world_long_lead * 60000000
    <= utcnow world_long_lead)%Z /\
   fst (schedule_notification a_rise 42%Z world_long_lead)
     = Raise OverflowError /\
   log (snd (schedule_notification a_rise 42%Z world_long_lead))
     = log world_long_lead) /\
  ((a_rise - NOTIFY_MINUTES world_long_negative_lead * 60000000
    > utcnow world_long_negative_lead)%Z /\
   fst (schedule_notification a_rise 42%Z world_long_negative_lead)
     = Raise OverflowError /\
   job_queue (snd (schedule_notification a_rise 42%Z world_long_negative_lead))
     = job_queue world_long_negative_lead).
Proof.
  split; (split; [vm_compute; congruence || reflexivity |]);
    split; reflexivity.
Qed.

(** ** The walk over the events *)

Lemma is_triple_spec (events : list Z) (i : nat) :
  is_triple events i = true <-> complete_triple events i.
Proof.
  unfold is_triple, event_is, complete_triple.
  rewrite !andb_true_iff, Nat.ltb_lt. split.
  - intros [[[H0 Hlen] H1] H2].
    destruct (nth_error events i) as [a|]; [| discriminate].
    destruct (nth_error events (i + 1)) as [b|]; [| discriminate].
    destruct (nth_error events (i + 2)) as [c|]; [| discriminate].
    apply Z.eqb_eq in H0, H1, H2. subst. auto.
  - intros [H0 [H1 H2]].
    assert (i + 2 < length events)
      by (apply nth_error_Some; rewrite H2; discriminate).
    rewrite H0, H1, H2. auto.
Qed.

Lemma is_triple_false (events : list Z) (i : nat) :
  is_triple events i = false <-> ~ complete_triple events i.
Proof.
  rewrite <- is_triple_spec. destruct (is_triple events i); split;
    intros H; try reflexivity; try discriminate.
  exfalso. apply H. reflexivity.
Qed.

Lemma float_ge_trans (a b c : pyfloat) :
  float_ge a b = true -> float_ge b c = true -> float_ge a c = true.
Proof.
  destruct a as [| |x|], b as [| |y|], c as [| |z|]; simpl;
    try discriminate; try reflexivity.
  rewrite !Qle_bool_iff. intros Hyx Hzy. apply (Qle_trans _ _ _ Hzy Hyx).
Qed.

Lemma increasing_snoc (l : list datetime) (x : datetime) :
  increasing l -> (forall y, In y l -> (y < x)%Z) -> increasing (l ++ [x]).
Proof.
  intros Hl Hx a b u v Hab Ha Hb.
  assert (Hblen : b < length (l ++ [x]))
    by (apply nth_error_Some; rewrite Hb; discriminate).
  rewrite length_app in Hblen. simpl in Hblen.
  rewrite nth_error_app1 in Ha by lia.
  destruct (Nat.eq_dec b (length l)) as [-> | Hne].
  - rewrite nth_error_app2, Nat.sub_diag in Hb by lia.
    injection Hb as <-. apply Hx. eapply nth_error_In, Ha.
  - rewrite nth_error_app1 in Hb by lia. apply (Hl a b); assumption.
Qed.

Section Loop.

Context {sky : Skyfield}.
Variable sat : satellite.
Variable station : Topos.
Variable t_events : list Time.
Variable events : list Z.

Lemma record_pass_cases (threshold : pyfloat) (r c s : Time)
    (passes : list Pass) :
  (float_ge (altaz_degrees sat station c) threshold = true /\
   record_pass sat station threshold r c s passes = passes ++ [pass_of sat station r c s])
  \/
  (float_ge (altaz_degrees sat station c) threshold = false /\
   record_pass sat station threshold r c s passes = passes).
Proof.
  unfold record_pass, pass_of.
  destruct (float_ge (altaz_degrees sat station c) threshold); auto.
Qed.

(** An event that starts no complete triple is stepped over. *)
Lemma collect_skip (threshold : pyfloat) (i : nat) (passes : list Pass) :
  ~ complete_triple events i ->
  collect sat station t_events events threshold i passes =
  collect sat station t_events events threshold (i + 1) passes.
Proof.
  intros Hno. apply is_triple_false in Hno.
  rewrite (collect_equation_1 _ _ _ _ _ i). rewrite Hno.
  destruct (lt_dec i (length events)); [reflexivity |].
  rewrite (collect_equation_1 _ _ _ _ _ (i + 1)).
  destruct (lt_dec (i + 1) (length events)); [lia | reflexivity].
Qed.

(** A complete triple is consumed whole. *)
Lemma collect_triple (threshold : pyfloat) (i : nat) (passes : list Pass)
    (r c s : Time) :
  complete_triple events i ->
  nth_error t_events i = Some r ->
  nth_error t_events (i + 1) = Some c ->
  nth_error t_events (i + 2) = Some s ->
  collect sat station t_events events threshold i passes =
  collect sat station t_events events threshold (i + 3)
          (record_pass sat station threshold r c s passes).
Proof.
  intros Htriple Hr Hc Hs.
  assert (i < length events)
    by (apply nth_error_Some; destruct Htriple as [-> _]; discriminate).
  apply is_triple_spec in Htriple.
  rewrite (collect_equation_1 _ _ _ _ _ i). rewrite Htriple, Hr, Hc, Hs.
  destruct (lt_dec i (length events)); [reflexivity | lia].
Qed.

(** Induction along the walk: a property of the index and of the list
    built so far that every step preserves holds when the walk returns. *)
Lemma collect_invariant (threshold : pyfloat)
    (Inv : nat -> list Pass -> Prop) :
  (forall i passes, i < length events -> ~ complete_triple events i ->
     Inv i passes -> Inv (i + 1) passes) ->
  (forall i passes r c s, complete_triple events i ->
     nth_error t_events i = Some r ->
     nth_error t_events (i + 1) = Some c ->
     nth_error t_events (i + 2) = Some s ->
     Inv i passes ->
     Inv (i + 3) (record_pass sat station threshold r c s passes)) ->
  forall i passes result,
    Inv i passes ->
    collect sat station t_events events threshold i passes = Return result ->
    exists k, length events <= k /\ Inv k result.
Proof.
  intros Hskip Hemit i. remember (length events - i) as n eqn:Hn.
  revert i Hn. induction n as [n IH] using lt_wf_ind.
  intros i Hn passes result Hinv Hrun.
  rewrite collect_equation_1 in Hrun.
  destruct (lt_dec i (length events)) as [Hlt | Hge].
  - destruct (is_triple events i) eqn:Htriple.
    + apply is_triple_spec in Htriple.
      destruct (nth_error t_events i) as [r|] eqn:Hr; [| discriminate].
      destruct (nth_error t_events (i + 1)) as [c|] eqn:Hc; [| discriminate].
      destruct (nth_error t_events (i + 2)) as [s|] eqn:Hs; [| discriminate].
      apply (IH (length events - (i + 3))) with (i := i + 3) in Hrun;
        [exact Hrun | lia | reflexivity |].
      apply Hemit; assumption.
    + apply is_triple_false in Htriple.
      apply (IH (length events - (i + 1))) with (i := i + 1) in Hrun;
        [exact Hrun | lia | reflexivity |].
      apply Hskip; assumption.
  - injection Hrun as <-. exists i. split; [lia | exact Hinv].
Qed.

(** Every pass of the result is the pass of a complete triple whose
    elevation at culmination reaches the threshold. *)
Lemma collect_sound (threshold : pyfloat) (result : list Pass) :
  collect sat station t_events events threshold 0 [] = Return result ->
  forall p, In p result ->
    float_ge (max_elevation p) threshold = true /\
    exists i, pass_of_triple sat station t_events events i p.
Proof.
  intros Hrun.
  set (Inv := fun (_ : nat) (passes : list Pass) =>
                forall p, In p passes ->
                  float_ge (max_elevation p) threshold = true /\
                  exists i, pass_of_triple sat station t_events events i p).
  assert (Hend : exists k, length events <= k /\ Inv k result).
  { apply (@collect_invariant threshold Inv) with (i := 0) (passes := []).
    - intros i passes _ _ H. exact H.
    - intros i passes r c s Htriple Hr Hc Hs H p Hin.
      destruct (record_pass_cases threshold r c s passes)
        as [[Hge E] | [_ E]]; rewrite E in Hin.
      + apply in_app_or in Hin. destruct Hin as [Hin | [<- | []]].
        * apply H, Hin.
        * split; [exact Hge |]. exists i. split; [exact Htriple |].
          exists r, c, s. auto.
      + apply H, Hin.
    - intros p [].
    - exact Hrun. }
  destruct Hend as [k [_ Hk]]. exact Hk.
Qed.

(** Without a rise event the walk returns the list it started from. *)
Lemma collect_no_rise (threshold : pyfloat) (passes : list Pass) :
  (forall e, In e events -> e <> 0%Z) ->
  forall i, collect sat station t_events events threshold i passes
            = Return passes.
Proof.
  intros Hno i. remember (length events - i) as n eqn:Hn.
  revert i Hn. induction n as [n IH] using lt_wf_ind. intros i Hn.
  destruct (lt_dec i (length events)) as [Hlt | Hge].
  - rewrite collect_skip.
    + apply (IH (length events - (i + 1))); [lia | reflexivity].
    + intros [H0 _]. apply nth_error_In in H0. apply (Hno _ H0). reflexivity.
  - rewrite collect_equation_1.
    destruct (lt_dec i (length events)); [lia | reflexivity].
Qed.

(** Raising the threshold removes passes and changes nothing else. *)
Lemma collect_threshold (low high : pyfloat) :
  float_ge high low = true ->
  forall i passes_high passes_low result_high,
    (forall p, In p passes_high -> In p passes_low) ->
    collect sat station t_events events high i passes_high
      = Return result_high ->
    exists result_low,
      collect sat station t_events events low i passes_low
        = Return result_low /\
      forall p, In p result_high -> In p result_low.
Proof.
  intros Hge i. remember (length events - i) as n eqn:Hn.
  revert i Hn. induction n as [n IH] using lt_wf_ind.
  intros i Hn passes_high passes_low result_high Hincl Hrun.
  rewrite collect_equation_1 in Hrun. rewrite collect_equation_1.
  destruct (lt_dec i (length events)) as [Hlt | Hnlt].
  - destruct (is_triple events i).
    + destruct (nth_error t_events i) as [r|]; [| discriminate].
      destruct (nth_error t_events (i + 1)) as [c|]; [| discriminate].
      destruct (nth_error t_events (i + 2)) as [s|]; [| discriminate].
      apply (IH (length events - (i + 3))) with (i := i + 3)
        (passes_high := record_pass sat station high r c s passes_high);
        [lia | reflexivity | | exact Hrun].
      intros p Hin.
      destruct (record_pass_cases high r c s passes_high)
        as [[Hhigh Eh] | [_ Eh]]; rewrite Eh in Hin.
      * assert (Hlow : float_ge (altaz_degrees sat station c) low = true)
          by (apply float_ge_trans with high; assumption).
        destruct (record_pass_cases low r c s passes_low)
          as [[_ ->] | [Habs _]]; [| congruence].
        apply in_or_app. apply in_app_or in Hin.
        destruct Hin as [Hin | Hin]; [left; apply Hincl, Hin | right; exact Hin].
      * destruct (record_pass_cases low r c s passes_low)
          as [[_ ->] | [_ ->]].
        -- apply in_or_app. left. apply Hincl, Hin.
        -- apply Hincl, Hin.
    + apply (IH (length events - (i + 1))) with (i := i + 1)
        (passes_high := passes_high);
        [lia | reflexivity | exact Hincl | exact Hrun].
  - injection Hrun as <-. exists passes_low. split; [reflexivity | exact Hincl].
Qed.

(** When the instants of [t_events] increase with the index, every pass of
    the result has its three instants in order, and the rise instants
    increase along the result. *)
Lemma collect_chronological (threshold : pyfloat) (result : list Pass) :
  increasing (map utc_datetime t_events) ->
  collect sat station t_events events threshold 0 [] = Return result ->
  (forall p, In p result ->
     (rise p < culmination p)%Z /\ (culmination p < set p)%Z) /\
  increasing (map rise result).
Proof.
  intros Hinc Hrun.
  assert (Hlt : forall a b x y, a < b -> nth_error t_events a = Some x ->
            nth_error t_events b = Some y ->
            (utc_datetime x < utc_datetime y)%Z).
  { intros a b x y Hab Ha Hb.
    apply (Hinc a b); [exact Hab | |]; apply map_nth_error; assumption. }
  set (Inv := fun (i : nat) (passes : list Pass) =>
         (forall p, In p passes ->
            (rise p < culmination p)%Z /\ (culmination p < set p)%Z) /\
         increasing (map rise passes) /\
         (forall p k t, In p passes -> i <= k ->
            nth_error t_events k = Some t -> (rise p < utc_datetime t)%Z)).
  assert (Hend : exists k, length events <= k /\ Inv k result).
  { apply (@collect_invariant threshold Inv) with (i := 0) (passes := []).
    - intros i passes _ _ [H1 [H2 H3]]. split; [exact H1 |].
      split; [exact H2 |]. intros p k t Hp Hk Ht.
      apply (H3 p k t); [exact Hp | lia | exact Ht].
    - intros i passes r c s _ Hr Hc Hs [H1 [H2 H3]].
      destruct (record_pass_cases threshold r c s passes)
        as [[_ E] | [_ E]]; rewrite E.
      + split; [| split].
        * intros p Hin. apply in_app_or in Hin.
          destruct Hin as [Hin | [<- | []]]; [apply H1, Hin |].
          simpl. split.
          -- apply (Hlt i (i + 1)); [lia | assumption | assumption].
          -- apply (Hlt (i + 1) (i + 2)); [lia | assumption | assumption].
        * rewrite map_app. simpl. apply increasing_snoc; [exact H2 |].
          intros y Hy. apply in_map_iff in Hy. destruct Hy as [p [<- Hp]].
          apply (H3 p i r); [exact Hp | lia | exact Hr].
        * intros p k t Hin Hk Ht. apply in_app_or in Hin.
          destruct Hin as [Hin | [<- | []]].
          -- apply (H3 p k t); [exact Hin | lia | exact Ht].
          -- simpl. apply (Hlt i k); [lia | assumption | assumption].
      + split; [exact H1 |]. split; [exact H2 |].
        intros p k t Hp Hk Ht. apply (H3 p k t); [exact Hp | lia | exact Ht].
    - split; [intros p [] |]. split; [| intros p k t []].
      intros a b x y _ Ha. destruct a; discriminate.
    - exact Hrun. }
  destruct Hend as [k [_ [H1 [H2 _]]]]. split; assumption.
Qed.

End Loop.

(** ** The detector *)

Section Prediction.

Context {sky : Skyfield}.

(** A prediction that gets its satellite, its ephemeris and its events is
    the walk over these events. *)
Lemma calculate_passes_walk (next_days : Z) (w : world) (sat : satellite)
    (t_events : list Time) (events : list Z) :
  fst (get_satellite w) = inl sat ->
  ephemeris_failure w = None ->
  events_found next_days w sat t_events events ->
  fst (calculate_passes next_days w) =
    match collect sat (station_of w) t_events events
                  (ALTITUDE_THRESHOLD w) 0 [] with
    | Return passes => Return (inl passes)
    | Raise e => Raise e
    end.
Proof.
  unfold calculate_passes, events_found. intros Hsat Heph Hfound.
  pose proof (get_satellite_world w) as Hw.
  destruct (get_satellite w) as [r w1]. simpl in Hsat, Hw. subst r w1.
  simpl. rewrite Heph. fold (station_of w). rewrite Hfound.
  destruct (collect _ _ _ _ _ _ _); reflexivity.
Qed.

(** A prediction that returns a list of passes has walked the events the
    library reported. *)
Lemma calculate_passes_returns (next_days : Z) (w : world)
    (passes : list Pass) :
  fst (calculate_passes next_days w) = Return (inl passes) ->
  exists sat t_events events,
    fst (get_satellite w) = inl sat /\
    events_found next_days w sat t_events events /\
    collect sat (station_of w) t_events events (ALTITUDE_THRESHOLD w) 0 []
      = Return passes.
Proof.
  unfold calculate_passes, events_found. intros Hrun.
  pose proof (get_satellite_world w) as Hw.
  destruct (get_satellite w) as [[sat | error] w1]; simpl in Hw; subst w1;
    simpl in *; [| discriminate].
  destruct (ephemeris_failure w); [discriminate |].
  fold (station_of w) in Hrun.
  destruct (find_events _ _ _ _) as [[t_events events] | e] eqn:Hfound;
    [| discriminate].
  destruct (collect _ _ _ _ _ _ _) as [result | e] eqn:Hwalk; [| discriminate].
  injection Hrun as <-. exists sat, t_events, events.
  split; [reflexivity |]. split; [exact Hfound | exact Hwalk].
Qed.

(** The threshold plays no part in building the satellite. *)
Lemma get_satellite_threshold (t : pyfloat) (w : world) :
  fst (get_satellite (set_ALTITUDE_THRESHOLD t w)) = fst (get_satellite w).
Proof.
  unfold get_satellite, get_tle_for_satellite, load_tle_content.
  destruct w as [? ? ? ? ? ? ? content ? file ? ? ? ?]; simpl.
  destruct content as [text |]; [| destruct file as [text |]]; simpl;
    try reflexivity;
    destruct (find_block _ _ _ _) as [[[name l1] l2] | error]; simpl;
    try reflexivity; destruct (EarthSatellite l1 l2 _); reflexivity.
Qed.

(** The peak a returned pass records is the elevation the library gives
    at the instant of the culmination event of its triple. *)
Lemma recorded_peak_at_culmination (next_days : Z) (w : world)
    (passes : list Pass) :
  fst (calculate_passes next_days w) = Return (inl passes) ->
  exists sat t_events events,
    events_found next_days w sat t_events events /\
    forall p, In p passes ->
      exists i c,
        nth_error events (i + 1) = Some 1%Z /\
        nth_error t_events (i + 1) = Some c /\
        culmination p = utc_datetime c /\
        max_elevation p = altaz_degrees sat (station_of w) c.
Proof.
  intros Hrun.
  destruct (calculate_passes_returns _ _ Hrun)
    as [sat [t_events [events [_ [Hfound Hwalk]]]]].
  exists sat, t_events, events. split; [exact Hfound |].
  intros p Hin.
  destruct (collect_sound _ _ _ _ _ Hwalk p Hin)
    as [_ [i [[_ [Hculm _]] [r [c [s [_ [Hc [_ ->]]]]]]]]].
  exists i, c. auto.
Qed.

(** C1. Every pass the detector returns has a recorded peak elevation of
    at least the threshold, and is the pass of a complete triple of the
    reported events; a triple whose elevation at culmination does not reach
    the threshold contributes no pass to the result. *)
Theorem passes_reach_threshold (next_days : Z) (w : world)
    (passes : list Pass) :
  fst (calculate_passes next_days w) = Return (inl passes) ->
  exists sat t_events events,
    events_found next_days w sat t_events events /\
    (forall p, In p passes ->
       float_ge (max_elevation p) (ALTITUDE_THRESHOLD w) = true /\
       exists i, pass_of_triple sat (station_of w) t_events events i p) /\
    (forall r c s,
       float_ge (altaz_degrees sat (station_of w) c) (ALTITUDE_THRESHOLD w)
         = false ->
       ~ In (pass_of sat (station_of w) r c s) passes).
Proof.
  intros Hrun.
  destruct (calculate_passes_returns _ _ Hrun)
    as [sat [t_events [events [_ [Hfound Hwalk]]]]].
  exists sat, t_events, events. split; [exact Hfound |].
  pose proof (collect_sound _ _ _ _ _ Hwalk) as Hsound.
  split; [exact Hsound |].
  intros r c s Hlow Hin. apply Hsound in Hin. destruct Hin as [Hge _].
  simpl in Hge. congruence.
Qed.

(** C4. The events being reported in chronological order, every pass the
    detector returns has rise < culmination < set, and the rise instants
    increase along the returned sequence. *)
Theorem passes_chronological (next_days : Z) (w : world)
    (passes : list Pass) :
  chronological_events ->
  fst (calculate_passes next_days w) = Return (inl passes) ->
  (forall p, In p passes ->
     (rise p < culmination p)%Z /\ (culmination p < set p)%Z) /\
  (forall i j p q, i < j -> nth_error passes i = Some p ->
     nth_error passes j = Some q -> (rise p < rise q)%Z).
Proof.
  intros Hchrono Hrun.
  destruct (calculate_passes_returns _ _ Hrun)
    as [sat [t_events [events [_ [Hfound Hwalk]]]]].
  apply Hchrono in Hfound.
  destruct (collect_chronological _ _ _ _ _ Hfound Hwalk) as [Horder Hrise].
  split; [exact Horder |].
  intros i j p q Hij Hp Hq.
  apply (Hrise i j); [exact Hij | |]; apply map_nth_error; assumption.
Qed.

(** C6. When no rise event occurs in the window, the detector returns the
    empty sequence of passes, and not an error. *)
Theorem no_rise_no_pass (next_days : Z) (w : world) (sat : satellite)
    (t_events : list Time) (events : list Z) :
  fst (get_satellite w) = inl sat ->
  ephemeris_failure w = None ->
  events_found next_days w sat t_events events ->
  (forall e, In e events -> e <> 0%Z) ->
  fst (calculate_passes next_days w) = Return (inl []).
Proof.
  intros Hsat Heph Hfound Hnorise.
  rewrite (calculate_passes_walk Hsat Heph Hfound).
  rewrite collect_no_rise by exact Hnorise. reflexivity.
Qed.

(** C7. For the same element set, station and window, the passes returned
    with a threshold [high >= low] are among the passes returned with the
    threshold [low]. *)
Theorem threshold_monotone (next_days : Z) (w : world) (low high : pyfloat)
    (passes_high : list Pass) :
  float_ge high low = true ->
  fst (calculate_passes next_days (set_ALTITUDE_THRESHOLD high w))
    = Return (inl passes_high) ->
  exists passes_low,
    fst (calculate_passes next_days (set_ALTITUDE_THRESHOLD low w))
      = Return (inl passes_low) /\
    forall p, In p passes_high -> In p passes_low.
Proof.
  intros Hge Hrun.
  destruct (calculate_passes_returns _ _ Hrun)
    as [sat [t_events [events [Hsat [Hfound Hwalk]]]]].
  rewrite get_satellite_threshold in Hsat.
  assert (Heph : ephemeris_failure w = None).
  { unfold calculate_passes in Hrun.
    pose proof (get_satellite_world (set_ALTITUDE_THRESHOLD high w)) as Hw.
    destruct (get_satellite (set_ALTITUDE_THRESHOLD high w))
      as [[sat' | error] w1]; simpl in Hw; subst w1; simpl in Hrun;
      [| discriminate].
    destruct (ephemeris_failure w); [discriminate | reflexivity]. }
  simpl in Hwalk.
  destruct (@collect_threshold _ sat (station_of w) t_events events low high
              Hge 0 [] [] passes_high (fun p H => H) Hwalk)
    as [passes_low [Hlow Hincl]].
  exists passes_low. split; [| exact Hincl].
  rewrite (@calculate_passes_walk next_days (set_ALTITUDE_THRESHOLD low w)
             sat t_events events).
  - simpl. change (station_of (set_ALTITUDE_THRESHOLD low w))
      with (station_of w). rewrite Hlow. reflexivity.
  - rewrite get_satellite_threshold. exact Hsat.
  - exact Heph.
  - exact Hfound.
Qed.

(** C10. The walk steps over, one event at a time and without output, any
    event that does not start a complete rise/culmination/set triple;
    it consumes a complete triple whole; and every pass it returns is the
    pass of a complete triple of the reported events. *)
Theorem partial_passes_dropped (sat : satellite) (station : Topos)
    (t_events : list Time) (events : list Z) (threshold : pyfloat) :
  (forall i passes, ~ complete_triple events i ->
     collect sat station t_events events threshold i passes =
     collect sat station t_events events threshold (i + 1) passes) /\
  (forall i passes r c s, complete_triple events i ->
     nth_error t_events i = Some r ->
     nth_error t_events (i + 1) = Some c ->
     nth_error t_events (i + 2) = Some s ->
     collect sat station t_events events threshold i passes =
     collect sat station t_events events threshold (i + 3)
             (record_pass sat station threshold r c s passes)) /\
  (forall result,
     collect sat station t_events events threshold 0 [] = Return result ->
     forall p, In p result ->
       exists i, pass_of_triple sat station t_events events i p).
Proof.
  split; [| split].
  - intros i passes Hno. apply collect_skip, Hno.
  - intros i passes r c s. apply collect_triple.
  - intros result Hrun p Hin.
    destruct (collect_sound _ _ _ _ _ Hrun p Hin) as [_ H]. exact H.
Qed.

Lemma get_satellite_lines (w : world) (text : pystr) :
  element_text w text ->
  fst (get_satellite w) =
    match find_block (SAT_NAME w) (splitlines text) 0 (splitlines text) with
    | inr error => inr error
    | inl (name_line, tle_line1, tle_line2) =>
        match EarthSatellite tle_line1 tle_line2 (SAT_NAME w) with
        | Return sat => inl sat
        | Raise e => inr (SatelliteCreateError e)
        end
    end.
Proof.
  intros Htext. unfold get_satellite.
  pose proof (get_tle_for_satellite_lines Htext) as Hlines.
  pose proof (get_tle_for_satellite_world w) as Hw.
  destruct (get_tle_for_satellite w) as [r w']. simpl in Hlines, Hw.
  subst r w'. simpl.
  destruct (find_block _ _ _ _) as [[[name l1] l2] | error]; [| reflexivity].
  destruct (EarthSatellite l1 l2 (SAT_NAME w)); reflexivity.
Qed.

Lemma calculate_passes_error (next_days : Z) (w : world) (error : error_msg) :
  fst (get_satellite w) = inr error ->
  fst (calculate_passes next_days w) = Return (inr error).
Proof.
  unfold calculate_passes. destruct (get_satellite w) as [r w1]. simpl.
  intros ->. reflexivity.
Qed.

(** C8. Whenever no element set can be built, a prediction returns an
    error and no list of passes. *)
Theorem no_prediction_without_element_set (next_days : Z) (w : world) :
  element_set_unavailable w ->
  exists error, fst (calculate_passes next_days w) = Return (inr error).
Proof.
  intros [Hcontent Hfile | text Htext Habsent | text i Htext Hfirst Hshort
          | text i e Htext Hfirst Hlong Hraise].
  - exists TleFileNotFound. apply calculate_passes_error.
    unfold get_satellite, get_tle_for_satellite, load_tle_content.
    rewrite Hcontent, Hfile. reflexivity.
  - exists SatelliteNotFound. apply calculate_passes_error.
    rewrite (get_satellite_lines Htext), (@find_block_no_match _ _ Habsent).
    reflexivity.
  - exists IncompleteTle. apply calculate_passes_error.
    rewrite (get_satellite_lines Htext), (find_block_first_match Hfirst).
    destruct (Nat.ltb_spec (i + 2) (length (splitlines text)));
      [lia | reflexivity].
  - exists (SatelliteCreateError e). apply calculate_passes_error.
    rewrite (get_satellite_lines Htext), (find_block_first_match Hfirst).
    destruct (Nat.ltb_spec (i + 2) (length (splitlines text)));
      [| lia].
    rewrite Hraise. reflexivity.
Qed.

End Prediction.

(** ** Examples *)

Lemma increasing_sorted (l : list datetime) :
  StronglySorted Z.lt l -> increasing l.
Proof.
  induction 1 as [| x l Hsorted IH Hall]; intros a b u v Hab Ha Hb.
  - destruct a; discriminate.
  - destruct b as [| b]; [lia |]. simpl in Hb. destruct a as [| a].
    + injection Ha as <-. rewrite Forall_forall in Hall.
      apply Hall. eapply nth_error_In, Hb.
    + simpl in Ha. apply (IH a b); [lia | assumption | assumption].
Qed.

Example sample_passes :
  fst (@calculate_passes sample_sky 3 world_loaded)
    = Return (inl [pass_40; pass_20]).
Proof. reflexivity. Qed.

Example boundary_passes :
  fst (@calculate_passes boundary_sky 3 world_loaded)
    = Return (inl [pass_20]).
Proof. reflexivity. Qed.

Lemma passes_reach_threshold_witness :
  exists sat t_events events,
    @events_found sample_sky 3 world_loaded sat t_events events /\
    (forall p, In p [pass_40; pass_20] ->
       float_ge (max_elevation p) (ALTITUDE_THRESHOLD world_loaded) = true /\
       exists i, @pass_of_triple sample_sky sat (station_of world_loaded)
                                 t_events events i p) /\
    (forall r c s,
       float_ge (@altaz_degrees sample_sky sat (station_of world_loaded) c)
                (ALTITUDE_THRESHOLD world_loaded) = false ->
       ~ In (@pass_of sample_sky sat (station_of world_loaded) r c s)
            [pass_40; pass_20]).
Proof.
  apply (@passes_reach_threshold sample_sky 3 world_loaded).
  reflexivity.
Defined.

Lemma sample_sky_chronological : @chronological_events sample_sky.
Proof.
  intros sat station t0 t1 t_events events H.
  injection H as <- _. apply increasing_sorted.
  repeat (constructor; [| repeat constructor; simpl; lia]). constructor.
Qed.

Lemma passes_chronological_witness :
  (forall p, In p [pass_40; pass_20] ->
     (rise p < culmination p)%Z /\ (culmination p < set p)%Z) /\
  (forall i j p q, i < j -> nth_error [pass_40; pass_20] i = Some p ->
     nth_error [pass_40; pass_20] j = Some q -> (rise p < rise q)%Z).
Proof.
  apply (@passes_chronological sample_sky 3 world_loaded).
  - exact sample_sky_chronological.
  - reflexivity.
Defined.

Lemma no_rise_no_pass_witness :
  fst (@calculate_passes setting_sky 3 world_loaded) = Return (inl []).
Proof.
  apply (@no_rise_no_pass setting_sky 3 world_loaded tt
           [ (300000000, FFin (Qmake 10 1));
             (600000000, FFin (Qmake 0 1)) ]%Z
           [1; 2]%Z).
  - reflexivity.
  - reflexivity.
  - reflexivity.
  - intros e [<- | [<- | []]]; discriminate.
Defined.

Lemma threshold_monotone_witness :
  exists passes_low,
    fst (@calculate_passes sample_sky 3
           (set_ALTITUDE_THRESHOLD (FFin (Qmake 15 1)) world_loaded))
      = Return (inl passes_low) /\
    forall p, In p [pass_40] -> In p passes_low.
Proof.
  apply (@threshold_monotone sample_sky 3 world_loaded
           (FFin (Qmake 15 1)) (FFin (Qmake 30 1)) [pass_40]).
  - reflexivity.
  - reflexivity.
Defined.

Lemma partial_passes_dropped_witness :
  (* the culmination that opens the window starts no triple *)
  @collect boundary_sky tt (station_of world_loaded) boundary_times
           boundary_events (FFin (Qmake 15 1)) 0 [] =
  @collect boundary_sky tt (station_of world_loaded) boundary_times
           boundary_events (FFin (Qmake 15 1)) 1 [] /\
  (* nor does the rise that closes it *)
  @collect boundary_sky tt (station_of world_loaded) boundary_times
           boundary_events (FFin (Qmake 15 1)) 5 [pass_20] =
  @collect boundary_sky tt (station_of world_loaded) boundary_times
           boundary_events (FFin (Qmake 15 1)) 6 [pass_20] /\
  (* the only pass returned is the whole one *)
  (forall p, In p [pass_20] ->
     exists i, @pass_of_triple boundary_sky tt (station_of world_loaded)
                               boundary_times boundary_events i p).
Proof.
  pose proof (@partial_passes_dropped boundary_sky tt
                (station_of world_loaded) boundary_times boundary_events
                (FFin (Qmake 15 1))) as [Hskip [_ Hsound]].
  split; [| split].
  - apply (Hskip 0 []). intros [H _]. discriminate.
  - apply (Hskip 5 [pass_20]). intros [_ [H _]]. discriminate.
  - apply (Hsound [pass_20]). reflexivity.
Defined.

Lemma no_prediction_without_element_set_witness :
  (exists error,
     fst (@calculate_passes sample_sky 3 default_world)
       = Return (inr error)) /\
  (exists error,
     fst (@calculate_passes sample_sky 3
            (set_tle_content (Some text_other) default_world))
       = Return (inr error)) /\
  (exists error,
     fst (@calculate_passes sample_sky 3
            (set_tle_content (Some text_truncated) default_world))
       = Return (inr error)) /\
  (exists error,
     fst (@calculate_passes sample_sky 3
            (set_tle_content (Some text_empty_lines) default_world))
       = Return (inr error)).
Proof.
  split; [| split; [| split]];
    apply (@no_prediction_without_element_set sample_sky 3).
  - apply no_element_text; reflexivity.
  - apply name_absent with (text := text_other); [left; reflexivity |].
    intros line Hin. apply contains_false. vm_compute in Hin.
    destruct Hin as [<- | [<- | [<- | []]]]; reflexivity.
  - apply record_incomplete with (text := text_truncated) (i := 3);
      [left; reflexivity | | vm_compute; lia].
    split; [vm_compute; lia |]. split.
    + apply contains_spec. vm_compute. reflexivity.
    + intros j Hj. apply contains_false.
      destruct j as [|[|[|j]]]; [reflexivity | reflexivity | reflexivity | lia].
  - apply record_invalid with (text := text_empty_lines) (i := 0)
                              (e := Exn 1);
      [left; reflexivity | | vm_compute; lia | reflexivity].
    split; [vm_compute; lia |]. split.
    + apply contains_spec. vm_compute. reflexivity.
    + intros j Hj. lia.
Defined.

(** * Further properties *)

(** ** Element-set lookup *)

Lemma first_match_or_absent (name : pystr) (lines : list pystr) :
  (exists i, first_match name lines i) \/
  (forall line, In line lines -> ~ substring name line).
Proof.
  assert (H : forall n, n <= length lines ->
            (exists i, first_match name lines i) \/
            (forall j, j < n -> ~ substring name (line_at lines j))).
  { induction n as [| n IH]; intros Hn.
    - right. intros j Hj. lia.
    - destruct IH as [Hfound | Hnone]; [lia | left; exact Hfound |].
      destruct (contains name (line_at lines n)) eqn:E.
      + left. exists n. split; [lia |]. split; [| exact Hnone].
        apply contains_spec, E.
      + right. intros j Hj. destruct (Nat.eq_dec j n) as [-> | Hne].
        * apply contains_false, E.
        * apply Hnone. lia. }
  destruct (H (length lines) (Nat.le_refl _)) as [Hfound | Hnone].
  - left. exact Hfound.
  - right. intros line Hin. destruct (In_nth _ _ [] Hin) as [j [Hj <-]].
    apply Hnone, Hj.
Qed.

(** X1. What a lookup result says about the text: three lines are
    returned only for the first line that contains the name, with the two
    lines after it; the incomplete-data error only when that first line has
    fewer than two lines after it; the not-found error only when no line
    contains the name; and the file error never when a text is at hand. *)
Theorem get_tle_for_satellite_complete (w : world) (text : pystr) :
  element_text w text ->
  let lines := splitlines text in
  match fst (get_tle_for_satellite w) with
  | inl (name_line, tle_line1, tle_line2) =>
      exists i, first_match (SAT_NAME w) lines i /\ i + 2 < length lines /\
                name_line = line_at lines i /\
                tle_line1 = line_at lines (i + 1) /\
                tle_line2 = line_at lines (i + 2)
  | inr IncompleteTle =>
      exists i, first_match (SAT_NAME w) lines i /\ length lines <= i + 2
  | inr SatelliteNotFound =>
      forall line, In line lines -> ~ substring (SAT_NAME w) line
  | inr _ => False
  end.
Proof.
  intros Htext lines. rewrite (get_tle_for_satellite_lines Htext).
  fold lines.
  destruct (first_match_or_absent (SAT_NAME w) lines) as [[i Hi] | Hnone].
  - rewrite (find_block_first_match Hi).
    destruct (Nat.ltb_spec (i + 2) (length lines)).
    + exists i. auto.
    + exists i. auto.
  - rewrite (@find_block_no_match _ _ Hnone). exact Hnone.
Qed.

Lemma get_tle_for_satellite_complete_witness :
  exists i, first_match (of_ascii "CUBESX-HSE 3") (splitlines text_complete) i /\
            i + 2 < length (splitlines text_complete) /\
            of_ascii "CUBESX-HSE 3" = line_at (splitlines text_complete) i /\
            of_ascii "1 57172U" = line_at (splitlines text_complete) (i + 1) /\
            of_ascii "2 57172" = line_at (splitlines text_complete) (i + 2).
Proof.
  exact (@get_tle_for_satellite_complete world_loaded text_complete
           (or_introl eq_refl)).
Defined.

(** *** The lines of a text *)

(** Case analysis on a code point, deep enough to tell CR and LF from
    every other one. *)
Ltac case_code_point c :=
  let p := fresh "p" in
  destruct c as [| p];
  [ try reflexivity
  | do 4 (try (destruct p as [p | p |]; try reflexivity)) ].

Lemma splitlines_from_cons (cur : pystr) (c : N) (s : pystr) :
  splitlines_from cur (c :: s) =
    if is_linebreak c then rev cur :: splitlines_from [] (after_break c s)
    else splitlines_from (c :: cur) s.
Proof.
  cbn [splitlines_from]. destruct (is_linebreak c); [| reflexivity].
  f_equal. unfold after_break. destruct s as [| d s].
  - case_code_point c.
  - case_code_point c. case_code_point d.
Qed.

Lemma after_break_length (c : N) (s : pystr) :
  length (after_break c s) <= length s.
Proof.
  unfold after_break. destruct s as [| d s].
  - case_code_point c.
  - assert (H : length s <= length (d :: s)) by (simpl; lia).
    case_code_point c. case_code_point d. exact H.
Qed.

Lemma splitlines_from_single_line (n : nat) :
  forall s cur, length s <= n -> single_line cur ->
                Forall single_line (splitlines_from cur s).
Proof.
  induction n as [| n IH]; intros s cur Hlen Hcur.
  - destruct s; [| simpl in Hlen; lia]. simpl.
    destruct cur; constructor; [apply Forall_rev, Hcur | constructor].
  - destruct s as [| c s].
    + simpl. destruct cur; constructor; [apply Forall_rev, Hcur | constructor].
    + simpl in Hlen. rewrite splitlines_from_cons.
      destruct (is_linebreak c) eqn:E.
      * constructor; [apply Forall_rev, Hcur |].
        apply IH; [| constructor].
        pose proof (after_break_length c s). lia.
      * apply IH; [lia |]. constructor; assumption.
Qed.

Lemma splitlines_single_line (text line : pystr) :
  In line (splitlines text) -> single_line line.
Proof.
  intros Hin.
  pose proof (@splitlines_from_single_line (length text) text []
                (Nat.le_refl _) (Forall_nil _)) as H.
  rewrite Forall_forall in H. apply H, Hin.
Qed.

Lemma find_block_lines (name : pystr) (lines : list pystr) :
  forall rest i a b c,
    find_block name lines i rest = inl (a, b, c) ->
    In a lines /\ In b lines /\ In c lines.
Proof.
  induction rest as [| line rest IH]; intros i a b c H; simpl in H.
  - discriminate.
  - destruct (contains name line); [| apply (IH _ _ _ _ H)].
    destruct (Nat.ltb_spec (i + 2) (length lines)); [| discriminate].
    injection H as <- <- <-. unfold line_at.
    repeat split; apply nth_In; lia.
Qed.

(** X2. The three lines a lookup returns are lines of the text it worked
    on, and none of them contains a line terminator: neither CR nor LF
    reaches the element lines handed to the library. *)
Theorem lookup_lines_single (w : world) (name_line tle_line1 tle_line2 : pystr) :
  fst (get_tle_for_satellite w) = inl (name_line, tle_line1, tle_line2) ->
  exists text,
    element_text w text /\
    (In name_line (splitlines text) /\ single_line name_line) /\
    (In tle_line1 (splitlines text) /\ single_line tle_line1) /\
    (In tle_line2 (splitlines text) /\ single_line tle_line2).
Proof.
  unfold get_tle_for_satellite, load_tle_content, element_text.
  destruct (tle_content w) as [text |] eqn:Hc;
    [| destruct (tle_file w) as [text |] eqn:Hf]; simpl; intros H;
    try discriminate;
    apply find_block_lines in H; destruct H as [Ha [Hb Hc']];
    exists text; (split; [auto |]);
    repeat split; try assumption; eapply splitlines_single_line; eassumption.
Qed.

Lemma lookup_lines_single_witness :
  exists text,
    element_text world_unloaded text /\
    (In (of_ascii "CUBESX-HSE 3") (splitlines text) /\
     single_line (of_ascii "CUBESX-HSE 3")) /\
    (In (of_ascii "1 57172U") (splitlines text) /\
     single_line (of_ascii "1 57172U")) /\
    (In (of_ascii "2 57172") (splitlines text) /\
     single_line (of_ascii "2 57172")).
Proof.
  apply (@lookup_lines_single world_unloaded). reflexivity.
Defined.

(** X3. An empty satellite name is contained in every line: the lookup
    then returns the first three lines of the text, whatever satellite
    they describe; it reports incomplete data for a text of one or two
    lines, and an absent satellite only for a text without lines. *)
Theorem empty_name_matches_first_line (w : world) (text : pystr) :
  SAT_NAME w = [] ->
  element_text w text ->
  let lines := splitlines text in
  let result := fst (get_tle_for_satellite w) in
  (3 <= length lines ->
     result = inl (line_at lines 0, line_at lines 1, line_at lines 2)) /\
  (1 <= length lines < 3 -> result = inr IncompleteTle) /\
  (lines = [] -> result = inr SatelliteNotFound).
Proof.
  intros Hname Htext lines result. unfold result.
  rewrite (get_tle_for_satellite_lines Htext), Hname. fold lines.
  assert (Hfirst : 1 <= length lines -> first_match [] lines 0).
  { intros Hlen. split; [lia |]. split.
    - exists [], (line_at lines 0). reflexivity.
    - intros j Hj. lia. }
  split; [| split].
  - intros Hlen. rewrite (find_block_first_match (Hfirst ltac:(lia))).
    simpl. destruct (Nat.ltb_spec 2 (length lines)); [reflexivity | lia].
  - intros Hlen. rewrite (find_block_first_match (Hfirst ltac:(lia))).
    simpl. destruct (Nat.ltb_spec 2 (length lines)); [lia | reflexivity].
  - intros ->. reflexivity.
Qed.

Lemma empty_name_matches_first_line_witness :
  fst (get_tle_for_satellite world_nameless)
    = inl (of_ascii "ISS (ZARYA)", of_ascii "1 25544U", of_ascii "2 25544").
Proof.
  apply (proj1 (@empty_name_matches_first_line world_nameless text_complete
                  eq_refl (or_introl eq_refl))).
  vm_compute. lia.
Defined.

(** ** The walk over the events, continued *)

Section Coverage.

Context {sky : Skyfield}.
Variable sat : satellite.
Variable station : Topos.
Variable t_events : list Time.
Variable events : list Z.

Lemma record_pass_keeps (threshold : pyfloat) (r c s : Time)
    (passes : list Pass) (p : Pass) :
  In p passes -> In p (record_pass sat station threshold r c s passes).
Proof.
  intros Hin.
  destruct (record_pass_cases sat station threshold r c s passes)
    as [[_ ->] | [_ ->]]; [apply in_or_app; left |]; exact Hin.
Qed.

(** No complete triple whose elevation at culmination reaches the
    threshold is lost by the walk. *)
Lemma collect_complete (threshold : pyfloat) (result : list Pass) :
  collect sat station t_events events threshold 0 [] = Return result ->
  forall i p, pass_of_triple sat station t_events events i p ->
              float_ge (max_elevation p) threshold = true ->
              In p result.
Proof.
  intros Hrun.
  set (Inv := fun (k : nat) (passes : list Pass) =>
         forall i p, i < k ->
           pass_of_triple sat station t_events events i p ->
           float_ge (max_elevation p) threshold = true -> In p passes).
  assert (Hend : exists k, length events <= k /\ Inv k result).
  { apply (@collect_invariant _ sat station t_events events threshold Inv)
      with (i := 0) (passes := []).
    - intros k passes _ Hno H i p Hi Hp Hge.
      destruct (Nat.eq_dec i k) as [-> | Hne].
      + destruct Hp as [Htriple _]. contradiction.
      + apply (H i p); [lia | assumption | assumption].
    - intros k passes r c s Htriple Hr Hc Hs H i p Hi Hp Hge.
      destruct (Nat.lt_ge_cases i k) as [Hlt | Hle].
      + apply record_pass_keeps, (H i p); assumption.
      + destruct Htriple as [_ [K1 K2]].
        destruct Hp as [[T0 _] [r' [c' [s' [Hr' [Hc' [Hs' ->]]]]]]].
        assert (i = k \/ i = k + 1 \/ i = k + 2) as [-> | [-> | ->]] by lia.
        * rewrite Hr in Hr'. rewrite Hc in Hc'. rewrite Hs in Hs'.
          injection Hr' as <-. injection Hc' as <-. injection Hs' as <-.
          simpl in Hge.
          destruct (record_pass_cases sat station threshold r c s passes)
            as [[_ ->] | [Hlow _]]; [| congruence].
          apply in_or_app. right. left. reflexivity.
        * rewrite K1 in T0. discriminate.
        * rewrite K2 in T0. discriminate.
    - intros i p Hi. lia.
    - exact Hrun. }
  destruct Hend as [k [Hk Hinv]]. intros i p Hp Hge.
  apply (Hinv i p); [| exact Hp | exact Hge].
  destruct Hp as [[T0 _] _].
  assert (i < length events) by (apply nth_error_Some; rewrite T0; discriminate).
  lia.
Qed.

(** A triple uses up three events. *)
Lemma collect_length (threshold : pyfloat) (result : list Pass) :
  collect sat station t_events events threshold 0 [] = Return result ->
  3 * length result <= length events.
Proof.
  intros Hrun.
  set (Inv := fun (k : nat) (passes : list Pass) =>
         k <= length events /\ 3 * length passes <= k).
  assert (Hend : exists k, length events <= k /\ Inv k result).
  { apply (@collect_invariant _ sat station t_events events threshold Inv)
      with (i := 0) (passes := []).
    - intros k passes Hk _ [H1 H2]. split; lia.
    - intros k passes r c s [_ [_ H2]] _ _ _ [K1 K2].
      assert (k + 2 < length events)
        by (apply nth_error_Some; rewrite H2; discriminate).
      split; [lia |].
      destruct (record_pass_cases sat station threshold r c s passes)
        as [[_ ->] | [_ ->]]; [rewrite length_app; simpl |]; lia.
    - split; simpl; lia.
    - exact Hrun. }
  destruct Hend as [k [_ [H1 H2]]]. lia.
Qed.

(** The walk raises nothing but the IndexError of an array of instants
    shorter than the array of events. *)
Lemma collect_raises (threshold : pyfloat) (e : exn) :
  forall i passes,
    collect sat station t_events events threshold i passes = Raise e ->
    e = IndexError /\ length t_events < length events.
Proof.
  intros i. remember (length events - i) as n eqn:Hn.
  revert i Hn. induction n as [n IH] using lt_wf_ind.
  intros i Hn passes Hrun. rewrite collect_equation_1 in Hrun.
  destruct (lt_dec i (length events)) as [Hlt | Hge]; [| discriminate].
  destruct (is_triple events i) eqn:Htriple.
  - apply is_triple_spec in Htriple. destruct Htriple as [_ [_ H2]].
    assert (Hlen : i + 2 < length events)
      by (apply nth_error_Some; rewrite H2; discriminate).
    assert (Hshort : forall k, k <= i + 2 -> nth_error t_events k = None ->
                       length t_events < length events).
    { intros k Hk Hnone. apply nth_error_None in Hnone. lia. }
    destruct (nth_error t_events i) as [r |] eqn:Hr.
    + destruct (nth_error t_events (i + 1)) as [c |] eqn:Hc.
      * destruct (nth_error t_events (i + 2)) as [s |] eqn:Hs.
        -- apply (IH (length events - (i + 3))) with (i := i + 3) in Hrun;
             [exact Hrun | lia | reflexivity].
        -- injection Hrun as <-. split; [reflexivity |].
           apply (Hshort (i + 2)); [lia | exact Hs].
      * injection Hrun as <-. split; [reflexivity |].
        apply (Hshort (i + 1)); [lia | exact Hc].
    + injection Hrun as <-. split; [reflexivity |].
      apply (Hshort i); [lia | exact Hr].
  - apply (IH (length events - (i + 1))) with (i := i + 1) in Hrun;
      [exact Hrun | lia | reflexivity].
Qed.

End Coverage.

(** ** The detector, continued *)

Section MorePrediction.

Context {sky : Skyfield}.

(** X4. The passes returned are exactly the passes of the complete
    rise/culmination/set triples of the reported events whose elevation at
    culmination reaches the threshold: none is invented and none is lost. *)
Theorem passes_are_the_qualifying_triples (next_days : Z) (w : world)
    (passes : list Pass) :
  fst (calculate_passes next_days w) = Return (inl passes) ->
  exists sat t_events events,
    events_found next_days w sat t_events events /\
    forall p,
      In p passes <->
      (float_ge (max_elevation p) (ALTITUDE_THRESHOLD w) = true /\
       exists i, pass_of_triple sat (station_of w) t_events events i p).
Proof.
  intros Hrun.
  destruct (calculate_passes_returns _ _ Hrun)
    as [sat [t_events [events [_ [Hfound Hwalk]]]]].
  exists sat, t_events, events. split; [exact Hfound |].
  intros p. split.
  - apply (collect_sound _ _ _ _ _ Hwalk).
  - intros [Hge [i Hp]]. eapply collect_complete; eassumption.
Qed.

(** X5. At most one pass is returned for every three reported events. *)
Theorem one_pass_per_three_events (next_days : Z) (w : world)
    (passes : list Pass) :
  fst (calculate_passes next_days w) = Return (inl passes) ->
  exists sat t_events events,
    events_found next_days w sat t_events events /\
    3 * length passes <= length events.
Proof.
  intros Hrun.
  destruct (calculate_passes_returns _ _ Hrun)
    as [sat [t_events [events [_ [Hfound Hwalk]]]]].
  exists sat, t_events, events. split; [exact Hfound |].
  eapply collect_length; eassumption.
Qed.

(** X7. With a threshold that is not a number, which the settings accept,
    no pass is ever returned. *)
Theorem nan_threshold_no_pass (next_days : Z) (w : world)
    (passes : list Pass) :
  ALTITUDE_THRESHOLD w = FNaN ->
  fst (calculate_passes next_days w) = Return (inl passes) ->
  passes = [].
Proof.
  intros Hnan Hrun.
  destruct (calculate_passes_returns _ _ Hrun)
    as [sat [t_events [events [_ [_ Hwalk]]]]].
  destruct passes as [| p passes]; [reflexivity |].
  destruct (collect_sound _ _ _ _ _ Hwalk p (or_introl eq_refl)) as [Hge _].
  rewrite Hnan in Hge. destruct (max_elevation p); discriminate.
Qed.

End MorePrediction.

Lemma passes_are_the_qualifying_triples_witness :
  exists sat t_events events,
    @events_found sample_sky 3 world_loaded sat t_events events /\
    forall p,
      In p [pass_40; pass_20] <->
      (float_ge (max_elevation p) (ALTITUDE_THRESHOLD world_loaded) = true /\
       exists i, @pass_of_triple sample_sky sat (station_of world_loaded)
                                 t_events events i p).
Proof.
  apply (@passes_are_the_qualifying_triples sample_sky 3 world_loaded).
  reflexivity.
Defined.

Lemma one_pass_per_three_events_witness :
  exists sat t_events events,
    @events_found boundary_sky 3 world_loaded sat t_events events /\
    3 * length [pass_20] <= length events.
Proof.
  apply (@one_pass_per_three_events boundary_sky 3 world_loaded).
  reflexivity.
Defined.

Lemma nan_threshold_no_pass_witness :
  fst (@calculate_passes sample_sky 3
         (set_ALTITUDE_THRESHOLD FNaN world_loaded)) = Return (inl []) /\
  @nil Pass = [].
Proof.
  split; [reflexivity |].
  apply (@nan_threshold_no_pass sample_sky 3
           (set_ALTITUDE_THRESHOLD FNaN world_loaded) []);
    reflexivity.
Defined.

(** ** The notification scheduler, continued *)

(** What a request writes, whether it returns or raises. *)
Lemma schedule_notification_cases (pass_time : datetime) (chat_id : Z)
    (w : world) :
  let w' := snd (schedule_notification pass_time chat_id w) in
  w' = w \/
  w' = add_log (LogEntry INFO NotifyTimePassed) w \/
  exists delay, (0 < delay)%Q /\ w' = add_job (Job delay chat_id) w.
Proof.
  cbv zeta. unfold schedule_notification.
  destruct (timedelta_of_minutes (NOTIFY_MINUTES w)) as [lead | e];
    [| left; reflexivity].
  destruct (datetime_sub pass_time lead) as [notify_time | e];
    [| left; reflexivity].
  destruct (Qgt_bool _ 0) eqn:E; cbn [snd]; [| right; left; reflexivity].
  right. right. eexists. split; [| reflexivity].
  unfold Qgt_bool in E. apply negb_true_iff in E.
  destruct (Qlt_le_dec 0 (total_seconds (notify_time - utcnow w)%Z))
    as [Hlt | Hle]; [exact Hlt |].
  apply Qle_bool_iff in Hle. congruence.
Qed.

(** X8. The scheduler keeps the queue free of jobs that are already due:
    when every queued job has a positive delay, so has every job after a
    request, whether the request returns or raises; and a request writes
    neither the configuration nor the element text nor the clock. *)
Theorem schedule_notification_positive_delays (pass_time : datetime)
    (chat_id : Z) (w : world) :
  positive_delays w ->
  let w' := snd (schedule_notification pass_time chat_id w) in
  positive_delays w' /\
  configuration w' = configuration w /\
  tle_content w' = tle_content w /\
  utcnow w' = utcnow w.
Proof.
  unfold positive_delays. intros Hpos. cbv zeta.
  destruct (schedule_notification_cases pass_time chat_id w)
    as [-> | [-> | [delay [Hdelay ->]]]]; simpl; auto.
  split; [| auto]. apply Forall_app. split; [exact Hpos |].
  constructor; [exact Hdelay | constructor].
Qed.

Lemma schedule_notification_positive_delays_witness :
  positive_delays
    (snd (schedule_notification 3600000000%Z 42%Z default_world)) /\
  positive_delays (snd (schedule_notification a_rise 42%Z world_long_lead)).
Proof.
  split.
  - apply (@schedule_notification_positive_delays 3600000000%Z 42%Z
             default_world).
    constructor.
  - apply (@schedule_notification_positive_delays a_rise 42%Z
             world_long_lead).
    constructor.
Defined.

(** X9. Requests are not deduplicated: asking for a reminder of the same
    pass at each of the instants [clocks], all of them before the
    notification time, queues one job for every request, each due at the
    notification time. *)
Theorem repeated_requests_queue_duplicates (pass_time : datetime)
    (chat_id : Z) (w : world) (clocks : list datetime) :
  notification_time_ok pass_time (NOTIFY_MINUTES w) ->
  let fire := (pass_time - NOTIFY_MINUTES w * 60000000)%Z in
  (forall t, In t clocks -> (t < fire)%Z) ->
  job_queue (repeated_requests pass_time chat_id clocks w) =
    job_queue w ++
    map (fun t => Job (total_seconds (fire - t)%Z) chat_id) clocks.
Proof.
  cbv zeta. intros Hok. unfold repeated_requests.
  assert (Hgen : forall v, NOTIFY_MINUTES v = NOTIFY_MINUTES w ->
            (forall t, In t clocks ->
               (t < pass_time - NOTIFY_MINUTES w * 60000000)%Z) ->
            job_queue (fold_left (request_at pass_time chat_id) clocks v) =
              job_queue v ++
              map (fun t =>
                     Job (total_seconds
                            (pass_time - NOTIFY_MINUTES w * 60000000 - t)%Z)
                         chat_id) clocks).
  { induction clocks as [| t clocks IH]; intros v Hm Hbefore.
    - simpl. rewrite app_nil_r. reflexivity.
    - simpl. unfold request_at at 2.
      assert (Hokv : notification_time_ok pass_time
                       (NOTIFY_MINUTES (set_utcnow t v)))
        by (simpl; rewrite Hm; exact Hok).
      rewrite (@schedule_notification_in_range pass_time chat_id
                 (set_utcnow t v) Hokv).
      cbv zeta. simpl (utcnow _). simpl (NOTIFY_MINUTES _). rewrite Hm.
      destruct (Z.ltb_spec t (pass_time - NOTIFY_MINUTES w * 60000000))
        as [Hlt | Hge];
        [| specialize (Hbefore t (or_introl eq_refl)); lia].
      cbn [snd]. rewrite IH.
      + simpl. rewrite <- app_assoc. reflexivity.
      + simpl. exact Hm.
      + intros t' Ht'. apply Hbefore. right. exact Ht'. }
  intros Hbefore. apply Hgen; [reflexivity | exact Hbefore].
Qed.

Lemma repeated_requests_queue_duplicates_witness :
  job_queue (repeated_requests 3600000000%Z 42%Z [0; 60000000]%Z
                               default_world) =
    [Job (total_seconds 2700000000%Z) 42%Z;
     Job (total_seconds 2640000000%Z) 42%Z].
Proof.
  apply (@repeated_requests_queue_duplicates 3600000000%Z 42%Z
           default_world [0; 60000000]%Z (conj eq_refl eq_refl)).
  intros t [<- | [<- | []]]; reflexivity.
Defined.

(** ** Refreshing the element text *)

Lemma universal_newlines_cons (c : N) (s : pystr) :
  universal_newlines (c :: s) =
    if (c =? 13)%N then 10%N :: universal_newlines (after_break 13 s)
    else c :: universal_newlines s.
Proof.
  cbn [universal_newlines]. unfold after_break. destruct s as [| d s].
  - case_code_point c.
  - case_code_point c. case_code_point d.
Qed.

Lemma after_break_other (c : N) (s : pystr) :
  (c =? 13)%N = false -> after_break c s = s.
Proof.
  unfold after_break. intros Hc. destruct s as [| d s].
  - case_code_point c.
  - case_code_point c. discriminate.
Qed.

(** Reading a text back from a file does not change its lines. *)
Lemma splitlines_from_universal (n : nat) :
  forall s cur, length s <= n ->
    splitlines_from cur (universal_newlines s) = splitlines_from cur s.
Proof.
  induction n as [| n IH]; intros s cur Hlen.
  - destruct s; [reflexivity | simpl in Hlen; lia].
  - destruct s as [| c s]; [reflexivity |]. simpl in Hlen.
    rewrite universal_newlines_cons, (splitlines_from_cons cur c s).
    destruct (c =? 13)%N eqn:Hc.
    + apply N.eqb_eq in Hc. subst c.
      rewrite splitlines_from_cons. simpl (is_linebreak _).
      cbv iota. rewrite (@after_break_other 10%N) by reflexivity.
      rewrite IH; [reflexivity |].
      pose proof (after_break_length 13 s). lia.
    + rewrite splitlines_from_cons.
      rewrite !(@after_break_other c _ Hc).
      destruct (is_linebreak c); rewrite IH by lia; reflexivity.
Qed.

Lemma splitlines_universal (text : pystr) :
  splitlines (universal_newlines text) = splitlines text.
Proof.
  apply (@splitlines_from_universal (length text)). lia.
Qed.

(** What a lookup returns depends on the stored text and on the name
    only. *)
Lemma get_tle_for_satellite_stored (w v : world) (text : pystr) :
  tle_content w = Some text -> tle_content v = Some text ->
  SAT_NAME w = SAT_NAME v ->
  fst (get_tle_for_satellite w) = fst (get_tle_for_satellite v).
Proof.
  intros Hw Hv Hname.
  rewrite (@get_tle_for_satellite_lines w text) by (left; exact Hw).
  rewrite (@get_tle_for_satellite_lines v text) by (left; exact Hv).
  rewrite Hname. reflexivity.
Qed.

(** X10. The text the next lookup works on after a refresh. When the
    download succeeds (status 200) it is the downloaded text, also when the
    file could not be written and the refresh therefore reports a failure;
    the refresh reports success exactly when the file was written too.
    When the download fails, by an exception or by another status, the
    world is left as it was and the old text stays in use. *)
Theorem update_tle_then_lookup (response : outcome (Z * pystr))
    (write : write_outcome) (w : world) :
  let reported := fst (fst (update_tle response write w)) in
  let w' := snd (update_tle response write w) in
  match response with
  | Return (status_code, text) =>
      if (status_code =? 200)%Z then
        fst (get_tle_for_satellite w') =
          fst (get_tle_for_satellite (set_tle_content (Some text) w)) /\
        (reported = true <-> write = Written)
      else w' = w /\ reported = false
  | Raise e => w' = w /\ reported = false
  end.
Proof.
  cbv zeta. unfold update_tle.
  destruct response as [[status_code text] | e]; [| auto].
  destruct (status_code =? 200)%Z; [| auto].
  destruct write as [| e on_disk]; cbn [fst snd].
  - split; [| split; reflexivity].
    apply get_tle_for_satellite_stored with (text := text); reflexivity.
  - split; [| split; discriminate].
    apply get_tle_for_satellite_stored with (text := text); reflexivity.
Qed.

Section Restart.

Context {sky : Skyfield}.

Lemma get_satellite_fst (w v : world) :
  fst (get_tle_for_satellite w) = fst (get_tle_for_satellite v) ->
  SAT_NAME w = SAT_NAME v ->
  fst (get_satellite w) = fst (get_satellite v).
Proof.
  unfold get_satellite. intros Hlookup Hname.
  pose proof (get_tle_for_satellite_world w) as Hw.
  pose proof (get_tle_for_satellite_world v) as Hv.
  destruct (get_tle_for_satellite w) as [r1 w1].
  destruct (get_tle_for_satellite v) as [r2 v1].
  simpl in *. subst r2 w1 v1. simpl. rewrite Hname.
  destruct r1 as [[[name l1] l2] | error]; [| reflexivity].
  destruct (EarthSatellite l1 l2 (SAT_NAME v)); reflexivity.
Qed.

Lemma calculate_passes_fst (next_days : Z) (w v : world) :
  same_but_text w v ->
  fst (get_satellite w) = fst (get_satellite v) ->
  fst (calculate_passes next_days w) = fst (calculate_passes next_days v).
Proof.
  unfold same_but_text, calculate_passes. intros Hsame Hsat.
  pose proof (get_satellite_world w) as Hw.
  pose proof (get_satellite_world v) as Hv.
  destruct (get_satellite w) as [r1 w1].
  destruct (get_satellite v) as [r2 v1].
  simpl in Hsat, Hw, Hv. subst r2 w1 v1.
  destruct r1 as [sat | error]; [| reflexivity]. simpl.
  assert (H1 := f_equal GROUND_STATION_LAT Hsame).
  assert (H2 := f_equal GROUND_STATION_LON Hsame).
  assert (H3 := f_equal GROUND_STATION_ELEVATION Hsame).
  assert (H4 := f_equal ALTITUDE_THRESHOLD Hsame).
  assert (H5 := f_equal utcnow Hsame).
  assert (H6 := f_equal ephemeris_failure Hsame).
  simpl in H1, H2, H3, H4, H5, H6.
  rewrite H1, H2, H3, H4, H5, H6.
  destruct (ephemeris_failure v); [reflexivity |].
  destruct (find_events _ _ _ _) as [[t_events events] | e]; [| reflexivity].
  destruct (collect _ _ _ _ _ _ _); reflexivity.
Qed.

(** X11. A refresh that reports success survives a restart: a process
    that starts with no text in memory and reads the file the refresh
    wrote gets from every lookup and every prediction what the refreshing
    process gets from the text in its memory, although the file gives back
    CR LF and CR as LF. *)
Theorem refresh_survives_restart (response : outcome (Z * pystr))
    (write : write_outcome) (w : world) (next_days : Z) :
  fst (fst (update_tle response write w)) = true ->
  let w' := snd (update_tle response write w) in
  let restarted := set_tle_content None w' in
  fst (get_tle_for_satellite restarted) = fst (get_tle_for_satellite w') /\
  fst (calculate_passes next_days restarted) =
    fst (calculate_passes next_days w').
Proof.
  cbv zeta. unfold update_tle.
  destruct response as [[status_code text] | e]; [| discriminate].
  destruct (status_code =? 200)%Z; [| discriminate].
  destruct write as [| e on_disk]; [| discriminate]. intros _. cbn [fst snd].
  match goal with
  | |- fst (get_tle_for_satellite ?a) = fst (get_tle_for_satellite ?b) /\ _ =>
      assert (Hlookup : fst (get_tle_for_satellite a)
                        = fst (get_tle_for_satellite b))
  end.
  { rewrite (@get_tle_for_satellite_lines _ (universal_newlines text))
      by (right; split; reflexivity).
    rewrite (@get_tle_for_satellite_lines _ text) by (left; reflexivity).
    rewrite splitlines_universal. reflexivity. }
  split; [exact Hlookup |].
  apply calculate_passes_fst; [reflexivity |].
  apply get_satellite_fst; [exact Hlookup | reflexivity].
Qed.

End Restart.

Lemma update_tle_then_lookup_witness :
  fst (get_tle_for_satellite
         (snd (update_tle (Return (200%Z, text_complete))
                          (WriteFailed (Exn 13) None) default_world))) =
    fst (get_tle_for_satellite
           (set_tle_content (Some text_complete) default_world)) /\
  (fst (fst (update_tle (Return (200%Z, text_complete))
                        (WriteFailed (Exn 13) None) default_world)) = true
   <-> WriteFailed (Exn 13) None = Written).
Proof.
  exact (@update_tle_then_lookup (Return (200%Z, text_complete))
           (WriteFailed (Exn 13) None) default_world).
Defined.

Lemma refresh_survives_restart_witness :
  fst (get_tle_for_satellite
         (set_tle_content None
            (snd (update_tle (Return (200%Z, text_crlf)) Written
                             default_world)))) =
    fst (get_tle_for_satellite
           (snd (update_tle (Return (200%Z, text_crlf)) Written
                            default_world))) /\
  fst (@calculate_passes sample_sky 3
         (set_tle_content None
            (snd (update_tle (Return (200%Z, text_crlf)) Written
                             default_world)))) =
    fst (@calculate_passes sample_sky 3
           (snd (update_tle (Return (200%Z, text_crlf)) Written
                            default_world))).
Proof.
  apply (@refresh_survives_restart sample_sky (Return (200%Z, text_crlf))
           Written default_world 3).
  reflexivity.
Defined.

(** ** The settings conversation *)

Lemma lstrip_spec (s : pystr) :
  exists pre, s = pre ++ lstrip s /\ blank pre /\
              forall c rest, lstrip s = c :: rest -> isspace c = false.
Proof.
  induction s as [| c s [pre [Heq [Hblank Hhead]]]].
  - exists []. repeat split; [constructor | discriminate].
  - simpl. destruct (isspace c) eqn:E.
    + exists (c :: pre). split; [simpl; f_equal; exact Heq |].
      split; [constructor; assumption | exact Hhead].
    + exists []. split; [reflexivity |]. split; [constructor |].
      intros d rest H. injection H as <- _. exact E.
Qed.

(** [strip] removes a blank prefix and a blank suffix, and what is left
    neither starts nor ends with white space. *)
Lemma strip_spec (s : pystr) :
  exists pre post,
    s = pre ++ strip s ++ post /\ blank pre /\ blank post /\
    (forall c rest, strip s = c :: rest -> isspace c = false) /\
    (forall c init, strip s = init ++ [c] -> isspace c = false).
Proof.
  unfold strip, rstrip.
  destruct (lstrip_spec s) as [pre [Hpre [Bpre Hhead]]].
  destruct (lstrip_spec (rev (lstrip s))) as [tail [Htail [Btail Hlast]]].
  set (core := lstrip (rev (lstrip s))) in *.
  assert (Hmid : lstrip s = rev core ++ rev tail).
  { rewrite <- rev_app_distr, <- Htail, rev_involutive. reflexivity. }
  exists pre, (rev tail). split; [rewrite <- Hmid; exact Hpre |].
  split; [exact Bpre |]. split; [apply Forall_rev, Btail |]. split.
  - intros c rest Hc. apply (Hhead c (rest ++ rev tail)).
    rewrite Hmid, Hc. reflexivity.
  - intros c init Hc. apply (Hlast c (rev init)).
    rewrite <- (rev_involutive core), Hc, rev_app_distr. reflexivity.
Qed.

Lemma startswith_scheme (url : pystr) :
  startswith (of_ascii "http://") url || startswith (of_ascii "https://") url
    = true <-> has_scheme url.
Proof.
  unfold has_scheme. rewrite orb_true_iff, !startswith_spec. split.
  - intros [[rest H] | [rest H]]; exists rest; auto.
  - intros [rest [H | H]]; [left | right]; exists rest; exact H.
Qed.

Section Settings.

Context {builtins : Builtins} {telegram : Telegram}.

Ltac run_handler :=
  unfold bind, try_except, parsed, modify, get_world, send, ret, raise;
  cbn [fst snd hworld sent api_calls];
  repeat match goal with
         | |- context [delivery ?n] => destruct (delivery n)
         end;
  cbn [fst snd hworld sent api_calls].

(** X12. Changing the station coordinates is not atomic. When the text
    has two parts around one comma, the first is a number and the second
    is not, the latitude is overwritten and the longitude keeps its value.
    The handler then makes one call of the API, to tell the user that the
    format is wrong: when the call goes through the conversation stays in
    the same state, when it raises the exception escapes. *)
Theorem set_station_coords_partial_update (text lat_str lon_str : pystr)
    (lat : pyfloat) (s : hstate) :
  split_comma (strip text) = [lat_str; lon_str] ->
  float_of_str (strip lat_str) = Some lat ->
  float_of_str (strip lon_str) = None ->
  let s' := snd (set_station_coords text s) in
  hworld s' = set_GROUND_STATION_LAT lat (hworld s) /\
  (delivery (api_calls s) = None ->
     fst (set_station_coords text s) = Return SET_STATION_COORDS /\
     sent s' = sent s ++ [BadFormat StationCoords]) /\
  (forall e, delivery (api_calls s) = Some e ->
     fst (set_station_coords text s) = Raise e /\ sent s' = sent s).
Proof.
  intros Hsplit Hlat Hlon. cbv zeta. unfold set_station_coords.
  rewrite Hsplit. unfold bind, try_except, parsed. rewrite Hlat.
  unfold ret, modify. cbn [fst snd hworld sent api_calls]. rewrite Hlon.
  unfold raise, send. cbn [fst snd hworld sent api_calls].
  destruct (delivery (api_calls s)) as [e |];
    cbn [fst snd hworld sent api_calls].
  - split; [reflexivity |]. split; [discriminate |].
    intros e' He. injection He as <-. split; reflexivity.
  - split; [reflexivity |]. split; [| discriminate].
    intros _. split; reflexivity.
Qed.

(** X13. The handlers of the station elevation, of the threshold and of
    the lead write their setting exactly when the stripped text parses,
    whether or not the answers can be delivered, and write nothing else. *)
Theorem numeric_settings_written_iff_parsed (text : pystr) (s : hstate) :
  hworld (snd (set_station_elev text s)) =
    match float_of_str (strip text) with
    | Some x => set_GROUND_STATION_ELEVATION x (hworld s)
    | None => hworld s
    end /\
  hworld (snd (set_alt_threshold text s)) =
    match float_of_str (strip text) with
    | Some x => set_ALTITUDE_THRESHOLD x (hworld s)
    | None => hworld s
    end /\
  hworld (snd (set_notify_minutes text s)) =
    match int_of_str (strip text) with
    | Some m => set_NOTIFY_MINUTES m (hworld s)
    | None => hworld s
    end.
Proof.
  unfold set_station_elev, set_alt_threshold, set_notify_minutes.
  destruct (float_of_str (strip text)) as [x |];
    destruct (int_of_str (strip text)) as [m |];
    run_handler; repeat split; reflexivity.
Qed.

(** X14. An answer that cannot be delivered is taken for a format error:
    when the text parses but the call that sends the confirmation raises,
    the handler has already written the setting; it then tells the user
    that the format is wrong and asks again. *)
Theorem undelivered_confirmation_reported_as_bad_format (text : pystr)
    (m : Z) (e : exn) (s : hstate) :
  int_of_str (strip text) = Some m ->
  delivery (api_calls s) = Some e ->
  delivery (S (api_calls s)) = None ->
  set_notify_minutes text s =
    (Return SET_NOTIFY_MINUTES,
     {| hworld := set_NOTIFY_MINUTES m (hworld s);
        sent := sent s ++ [BadFormat NotifyMinutes];
        api_calls := S (S (api_calls s)) |}).
Proof.
  intros Hparse Hfail Hsent. unfold set_notify_minutes.
  unfold bind, try_except, parsed, modify, get_world, send, ret, raise.
  rewrite Hparse. cbn [fst snd hworld sent api_calls].
  rewrite Hfail. cbn [fst snd hworld sent api_calls]. rewrite Hsent.
  reflexivity.
Qed.

(** X15. The URL of the element source is replaced only by a stripped
    text that starts with http:// or https://; any other text leaves the
    world as it is and the conversation in the same state. So a URL that
    names its scheme keeps doing so. *)
Theorem set_tle_url_scheme (text : pystr) (s : hstate) :
  let s' := snd (set_tle_url text s) in
  (has_scheme (strip text) ->
     hworld s' = set_TLE_URL (strip text) (hworld s)) /\
  (~ has_scheme (strip text) ->
     hworld s' = hworld s /\
     (delivery (api_calls s) = None ->
        fst (set_tle_url text s) = Return SET_TLE_URL)) /\
  (has_scheme (TLE_URL (hworld s)) -> has_scheme (TLE_URL (hworld s'))).
Proof.
  cbv zeta. unfold set_tle_url.
  destruct (startswith (of_ascii "http://") (strip text)
            || startswith (of_ascii "https://") (strip text)) eqn:E.
  - apply startswith_scheme in E. run_handler;
      (split; [intros _; reflexivity |]);
      (split; [intros H; contradiction | intros _; exact E]).
  - assert (Hno : ~ has_scheme (strip text)).
    { intros H. apply startswith_scheme in H. congruence. }
    run_handler;
      (split; [intros H; contradiction |]);
      (split; [intros _; split; [reflexivity | try discriminate; auto]
              | auto]).
Qed.

(** X16. The name of the satellite is stored stripped: the text typed
    is the stored name between two runs of white space, the stored name
    neither starts nor ends with white space, and every line that contains
    the text as typed contains the stored name. *)
Theorem set_sat_name_stripped (text : pystr) (s : hstate) :
  let name := SAT_NAME (hworld (snd (set_sat_name text s))) in
  (exists pre post, text = pre ++ name ++ post /\ blank pre /\ blank post) /\
  (forall c rest, name = c :: rest -> isspace c = false) /\
  (forall c init, name = init ++ [c] -> isspace c = false) /\
  (forall line, substring text line -> substring name line).
Proof.
  cbv zeta.
  assert (Hname : SAT_NAME (hworld (snd (set_sat_name text s))) = strip text).
  { unfold set_sat_name. run_handler; reflexivity. }
  rewrite Hname.
  destruct (strip_spec text) as [pre [post [Heq [Bpre [Bpost [Hhead Hlast]]]]]].
  split; [exists pre, post; auto |]. split; [exact Hhead |].
  split; [exact Hlast |].
  intros line [a [b Hline]].
  exists (a ++ pre), (post ++ b). rewrite Hline, Heq at 1.
  rewrite !app_assoc. reflexivity.
Qed.

End Settings.

(** ** Commands and reminders *)

Lemma app_one_neq {A : Type} (l : list A) (x : A) : l = l ++ [x] -> False.
Proof.
  intros H. apply (f_equal (@length A)) in H.
  rewrite length_app in H. simpl in H. lia.
Qed.

Lemma reminder_due_spec (pass_time : datetime) (m : Z) (now : datetime) :
  reminder_due pass_time m now = true <->
  notification_time_ok pass_time m /\ (pass_time - m * 60000000 > now)%Z.
Proof.
  unfold reminder_due, notification_time_ok.
  rewrite !andb_true_iff, Z.ltb_lt. split.
  - intros [[H1 H2] H3]. repeat split; [assumption | assumption | lia].
  - intros [[H1 H2] H3]. repeat split; [assumption | assumption | lia].
Qed.

Lemma schedule_notification_queue (pass_time : datetime) (chat_id : Z)
    (w : world) :
  let fire := (pass_time - NOTIFY_MINUTES w * 60000000)%Z in
  job_queue (snd (schedule_notification pass_time chat_id w)) =
    if reminder_due pass_time (NOTIFY_MINUTES w) (utcnow w) then
      job_queue w ++ [Job (total_seconds (fire - utcnow w)%Z) chat_id]
    else job_queue w.
Proof.
  cbv zeta. unfold reminder_due.
  destruct (timedelta_ok (NOTIFY_MINUTES w * 60000000)) eqn:Hlead;
    [destruct (datetime_ok (pass_time - NOTIFY_MINUTES w * 60000000))
       eqn:Hfire |].
  - rewrite (@schedule_notification_in_range pass_time chat_id w
               (conj Hlead Hfire)).
    cbv zeta. simpl (true && true).
    destruct (utcnow w <? pass_time - NOTIFY_MINUTES w * 60000000)%Z;
      reflexivity.
  - rewrite schedule_notification_out_of_range; [reflexivity |].
    intros [_ H]. congruence.
  - rewrite schedule_notification_out_of_range; [reflexivity |].
    intros [H _]. congruence.
Qed.

Section Commands.

Context {builtins : Builtins} {telegram : Telegram} {sky : Skyfield}.

(** The queue after /next: one job more when a first pass was found, the
    call that announces it went through, and its notification time is
    representable and ahead of the clock; the same queue otherwise. *)
Lemma next_pass_command_queue (chat_id : Z) (later : datetime) (s : hstate) :
  job_queue (hworld (snd (next_pass_command chat_id later s))) =
    match fst (calculate_passes 3 (hworld s)) with
    | Return (inl (p :: _)) =>
        let fire := (rise p - NOTIFY_MINUTES (hworld s) * 60000000)%Z in
        match delivery (api_calls s) with
        | None =>
            if reminder_due (rise p) (NOTIFY_MINUTES (hworld s)) later then
              job_queue (hworld s) ++
                [Job (total_seconds (fire - later)%Z) chat_id]
            else job_queue (hworld s)
        | Some _ => job_queue (hworld s)
        end
    | _ => job_queue (hworld s)
    end.
Proof.
  unfold next_pass_command, predict, bind.
  pose proof (calculate_passes_world 3 (hworld s)) as Hw.
  destruct (calculate_passes 3 (hworld s)) as [r w1]. simpl in Hw. subst w1.
  cbn [fst snd].
  destruct r as [[[| p rest] | error] | e]; unfold send, remind, bind, modify;
    cbn [fst snd hworld sent api_calls];
    destruct (delivery (api_calls s));
    cbn [fst snd hworld sent api_calls]; try reflexivity.
  pose proof (schedule_notification_queue (rise p) chat_id
                (set_utcnow later
                   (set_tle_content (stored_after (hworld s)) (hworld s))))
    as Hq.
  cbv zeta in Hq.
  destruct (schedule_notification (rise p) chat_id _) as [r w']. exact Hq.
Qed.

(** X17. The /next command registers a reminder if and only if the
    prediction returns at least one pass, the call that announces the
    first one goes through, the notification time of that pass (its rise
    minus the lead) is one that [datetime] can compute, and it is still
    ahead of the clock; it registers at most that one, due at that instant
    and addressed to the chat that asked. Later passes are never
    considered. *)
Theorem next_pass_command_reminder (chat_id : Z) (later : datetime)
    (s : hstate) :
  let queue := job_queue (hworld s) in
  let queue' := job_queue (hworld (snd (next_pass_command chat_id later s))) in
  ((exists j, queue' = queue ++ [j]) <->
   (exists p rest,
      fst (calculate_passes 3 (hworld s)) = Return (inl (p :: rest)) /\
      delivery (api_calls s) = None /\
      notification_time_ok (rise p) (NOTIFY_MINUTES (hworld s)) /\
      (rise p - NOTIFY_MINUTES (hworld s) * 60000000 > later)%Z)) /\
  (forall j, queue' = queue ++ [j] ->
     job_chat_id j = chat_id /\
     exists p rest,
       fst (calculate_passes 3 (hworld s)) = Return (inl (p :: rest)) /\
       job_delay j =
         total_seconds
           (rise p - NOTIFY_MINUTES (hworld s) * 60000000 - later)%Z) /\
  (queue' = queue \/ exists j, queue' = queue ++ [j]).
Proof.
  cbv zeta. rewrite next_pass_command_queue.
  destruct (fst (calculate_passes 3 (hworld s)))
    as [[[| p rest] | error] | e];
    try (split; [split; [intros [j Hj]; destruct (@app_one_neq _ _ _ Hj)
                        | intros [p' [rest' [H _]]]; discriminate]
                | split; [intros j Hj; destruct (@app_one_neq _ _ _ Hj)
                         | left; reflexivity]]).
  cbv zeta.
  destruct (delivery (api_calls s)) as [e |] eqn:Hdel.
  - split; [split |].
    + intros [j Hj]. destruct (@app_one_neq _ _ _ Hj).
    + intros [p' [rest' [H [Hd _]]]]. discriminate.
    + split; [intros j Hj; destruct (@app_one_neq _ _ _ Hj) | left; reflexivity].
  - destruct (reminder_due (rise p) (NOTIFY_MINUTES (hworld s)) later)
      eqn:Hdue.
    + apply reminder_due_spec in Hdue. destruct Hdue as [Hok Hahead].
      split; [split |].
      * intros _. exists p, rest. split; [reflexivity |].
        split; [reflexivity |]. split; [exact Hok | exact Hahead].
      * intros _. eexists. reflexivity.
      * split; [| right; eexists; reflexivity].
        intros j Hj. apply app_inv_head in Hj. injection Hj as <-.
        split; [reflexivity |]. exists p, rest. split; reflexivity.
    + split; [split |].
      * intros [j Hj]. destruct (@app_one_neq _ _ _ Hj).
      * intros [p' [rest' [H [_ [Hok Hahead]]]]]. injection H as <- _.
        assert (reminder_due (rise p) (NOTIFY_MINUTES (hworld s)) later
                = true) by (apply reminder_due_spec; split; assumption).
        congruence.
      * split; [intros j Hj; destruct (@app_one_neq _ _ _ Hj) | left; reflexivity].
Qed.

(** X18. The events being reported in chronological order, the pass that
    /next announces is the earliest of the passes the prediction returns. *)
Theorem next_pass_is_the_earliest (chat_id : Z) (later : datetime)
    (s : hstate) (p : Pass) (passes : list Pass) :
  chronological_events ->
  fst (calculate_passes 3 (hworld s)) = Return (inl passes) ->
  In (NextPassText p) (sent (snd (next_pass_command chat_id later s))) ->
  ~ In (NextPassText p) (sent s) ->
  In p passes /\ forall q, In q passes -> (rise p <= rise q)%Z.
Proof.
  intros Hchrono Hrun Hsent Hnew.
  destruct (calculate_passes_returns _ _ Hrun)
    as [sat [t_events [events [_ [Hfound Hwalk]]]]].
  apply Hchrono in Hfound.
  destruct (collect_chronological _ _ _ _ _ Hfound Hwalk) as [_ Hrise].
  assert (Hhead : exists rest, passes = p :: rest).
  { revert Hsent. unfold next_pass_command, predict, bind.
    destruct (calculate_passes 3 (hworld s)) as [r w1]. simpl in Hrun.
    subst r. cbn [fst snd].
    destruct passes as [| p0 rest]; unfold send, remind, bind, modify;
      cbn [fst snd hworld sent api_calls];
      destruct (delivery (api_calls s));
      cbn [fst snd hworld sent api_calls];
      try (destruct (schedule_notification (rise p0) chat_id _) as [r' w']);
      cbn [fst snd hworld sent api_calls]; intros Hsent;
      try contradiction;
      apply in_app_or in Hsent; destruct Hsent as [H | [H | []]];
      try contradiction; try discriminate.
    injection H as ->. exists rest. reflexivity. }
  destruct Hhead as [rest ->]. split; [left; reflexivity |].
  intros q [<- | Hq]; [lia |].
  destruct (In_nth _ _ p Hq) as [k [Hk Hnth]].
  assert ((rise p < rise q)%Z); [| lia].
  apply (Hrise 0 (S k)); [lia | reflexivity |].
  simpl. rewrite nth_error_map, (nth_error_nth' rest p Hk), Hnth. reflexivity.
Qed.

(** X19. The text of a reminder is written when the job fires, from the
    settings of that moment: a reminder registered with one lead and fired
    after the lead was changed announces the new lead, though it is due
    by the old one. *)
Theorem reminder_announces_current_lead (pass_time : datetime) (chat_id : Z)
    (text : pystr) (m' : Z) (w : world) (calls : nat) :
  let fire := (pass_time - NOTIFY_MINUTES w * 60000000)%Z in
  notification_time_ok pass_time (NOTIFY_MINUTES w) ->
  (fire > utcnow w)%Z ->
  int_of_str (strip text) = Some m' ->
  let j := Job (total_seconds (fire - utcnow w)%Z) chat_id in
  let registered := snd (schedule_notification pass_time chat_id w) in
  let changed := snd (set_notify_minutes text
                        {| hworld := registered; sent := [];
                           api_calls := calls |}) in
  delivery (api_calls changed) = None ->
  job_queue (hworld changed) = job_queue w ++ [j] /\
  sent (snd (pass_notification j changed)) =
    sent changed ++ [Reminder chat_id m' (SAT_NAME w)].
Proof.
  cbv zeta. intros Hok Hfire Hparse.
  rewrite (@schedule_notification_in_range pass_time chat_id w Hok).
  cbv zeta.
  destruct (Z.ltb_spec (utcnow w) (pass_time - NOTIFY_MINUTES w * 60000000));
    [| lia].
  cbn [snd].
  unfold set_notify_minutes, pass_notification.
  unfold bind, try_except, parsed, modify, get_world, send, ret, raise.
  rewrite Hparse. cbn [fst snd hworld sent api_calls].
  destruct (delivery calls); cbn [fst snd hworld sent api_calls];
    destruct (delivery (S calls)); cbn [fst snd hworld sent api_calls];
    intros Hsent; rewrite Hsent; cbn [fst snd hworld sent api_calls];
    split; reflexivity.
Qed.

End Commands.

(** ** The bot as a whole *)

Section Invariants.

Context {builtins : Builtins} {telegram : Telegram} {sky : Skyfield}.

Variable P : world -> Prop.

Lemma preserves_ret {A : Type} (a : A) : preserves P (ret a).
Proof. intros s H. exact H. Qed.

Lemma preserves_raise {A : Type} (e : exn) : preserves P (@raise A e).
Proof. intros s H. exact H. Qed.

Lemma preserves_bind {A B : Type} (m : handler A) (k : A -> handler B) :
  preserves P m -> (forall a, preserves P (k a)) -> preserves P (bind m k).
Proof.
  intros Hm Hk s H. unfold bind. specialize (Hm s H).
  destruct (m s) as [[a | e] s']; simpl in *; [apply Hk, Hm | exact Hm].
Qed.

Lemma preserves_try_except {A : Type} (body except : handler A) :
  preserves P body -> preserves P except ->
  preserves P (try_except body except).
Proof.
  intros Hb He s H. unfold try_except. specialize (Hb s H).
  destruct (body s) as [[a | e] s']; simpl in *; [exact Hb | apply He, Hb].
Qed.

Lemma preserves_send (m : bot_message) : preserves P (send m).
Proof.
  intros s H. unfold send. destruct (delivery (api_calls s)); exact H.
Qed.

Lemma preserves_get_world : preserves P get_world.
Proof. intros s H. exact H. Qed.

Lemma preserves_parsed {A : Type} (x : option A) : preserves P (parsed x).
Proof. intros s H. destruct x; exact H. Qed.

Lemma preserves_modify (f : world -> world) :
  (forall w, P w -> P (f w)) -> preserves P (modify f).
Proof. intros Hf s H. apply Hf, H. Qed.

End Invariants.

Lemma schedule_notification_well_kept (pass_time : datetime) (chat_id : Z)
    (w : world) :
  well_kept w -> well_kept (snd (schedule_notification pass_time chat_id w)).
Proof.
  unfold well_kept, positive_delays. intros [Hurl [Hpos Hdate]].
  destruct (schedule_notification_cases pass_time chat_id w)
    as [-> | [-> | [delay [Hdelay ->]]]]; simpl; auto.
  split; [exact Hurl |]. split; [| exact Hdate].
  apply Forall_app. split; [exact Hpos |].
  constructor; [exact Hdelay | constructor].
Qed.

Lemma update_tle_well_kept (response : outcome (Z * pystr))
    (write : write_outcome) (w : world) :
  well_kept w -> well_kept (snd (update_tle response write w)).
Proof.
  unfold well_kept, positive_delays, update_tle. intros [Hurl [Hpos Hdate]].
  destruct response as [[status_code text] | e]; [| auto].
  destruct (status_code =? 200)%Z; [| auto].
  destruct write as [| e on_disk]; simpl;
    (split; [exact Hurl |]); (split; [exact Hpos |]); discriminate.
Qed.

Section Kept.

Context {builtins : Builtins} {telegram : Telegram} {sky : Skyfield}.

Lemma calculate_passes_well_kept (next_days : Z) (w : world) :
  well_kept w -> well_kept (snd (calculate_passes next_days w)).
Proof.
  rewrite calculate_passes_world. unfold well_kept, positive_delays,
    stored_after. intros [Hurl [Hpos Hdate]]. simpl.
  split; [exact Hurl |]. split; [exact Hpos |].
  destruct (tle_content w); [discriminate |].
  intros Hshown. destruct (Hdate Hshown eq_refl).
Qed.

Lemma preserves_predict (next_days : Z) :
  preserves well_kept (predict next_days).
Proof.
  intros s H. unfold predict.
  pose proof (calculate_passes_well_kept next_days H) as Hk.
  destruct (calculate_passes next_days (hworld s)) as [r w']. exact Hk.
Qed.

Lemma preserves_refresh (response : outcome (Z * pystr))
    (write : write_outcome) :
  preserves well_kept (refresh response write).
Proof.
  intros s H. unfold refresh.
  pose proof (update_tle_well_kept response write H) as Hk.
  destruct (update_tle response write (hworld s)) as [r w']. exact Hk.
Qed.

Lemma preserves_remind (pass_time : datetime) (chat_id : Z)
    (later : datetime) :
  preserves well_kept (remind pass_time chat_id later).
Proof.
  unfold remind. apply preserves_bind; [| intros _].
  - apply preserves_modify. intros w H. exact H.
  - intros s H.
    pose proof (@schedule_notification_well_kept pass_time chat_id
                  (hworld s) H) as Hk.
    destruct (schedule_notification pass_time chat_id (hworld s)) as [r w'].
    exact Hk.
Qed.

(** A write of a setting other than the URL. *)
Ltac keeps_setting :=
  let w := fresh "w" in
  let H := fresh "H" in
  intros w H; exact H.

Ltac keep :=
  repeat first
    [ apply preserves_ret
    | apply preserves_raise
    | apply preserves_send
    | apply preserves_get_world
    | apply preserves_parsed
    | apply preserves_predict
    | apply preserves_refresh
    | apply preserves_remind
    | apply preserves_try_except
    | apply preserves_bind; [| intros ?]
    | apply preserves_modify; keeps_setting
    | match goal with
      | |- preserves _ (match ?x with _ => _ end) => destruct x
      | |- preserves _ (if ?b then _ else _) => destruct b
      end ].

Lemma perform_well_kept (a : action) (s : hstate) :
  well_kept (hworld s) -> well_kept (hworld (perform a s)).
Proof.
  destruct a; cbn [perform]; revert s;
    match goal with
    | |- forall s, well_kept (hworld s) ->
                   well_kept (hworld (snd (?h s))) =>
        change (preserves well_kept h)
    end.
  - apply preserves_refresh.
  - unfold start. keep.
  - unfold next_pass_command. keep.
  - unfold three_day_command. keep.
  - unfold update_tle_command. keep.
  - unfold button_handler. keep.
  - unfold settings_start. keep.
  - unfold settings_button. keep.
  - unfold settings_cancel. keep.
  - unfold set_sat_name. keep.
  - unfold set_station_coords. cbv zeta. keep.
  - unfold set_station_elev. keep.
  - unfold set_alt_threshold. keep.
  - unfold set_notify_minutes. keep.
  - unfold set_tle_url. cbv zeta.
    destruct (startswith (of_ascii "http://") (strip text)
              || startswith (of_ascii "https://") (strip text)) eqn:E.
    + apply startswith_scheme in E.
      apply preserves_bind; [| intros ?; keep].
      apply preserves_modify. intros w [_ H]. split; [exact E | exact H].
    + keep.
  - unfold pass_notification. keep.
Qed.

(** X20. Whatever the users type and press, whatever the network and the
    file system do, and in whatever order: the element source stays a web
    address, the queue never receives a reminder that is already due, and
    a date of last refresh is never shown without an element text in
    memory. *)
Theorem bot_stays_well_kept (history : list action) (s : hstate) :
  well_kept (hworld s) -> well_kept (hworld (run history s)).
Proof.
  unfold run. revert s.
  induction history as [| a history IH]; intros s H; simpl; [exact H |].
  apply IH, perform_well_kept, H.
Qed.

End Kept.

(** ** Examples, continued *)

Lemma set_station_coords_partial_update_witness :
  hworld (snd (@set_station_coords decimal_builtins all_delivered
                 (of_ascii "60,north") initial_state)) =
    set_GROUND_STATION_LAT (FFin (inject_Z 60)) default_world /\
  fst (@set_station_coords decimal_builtins all_delivered
         (of_ascii "60,north") initial_state) = Return SET_STATION_COORDS /\
  sent (snd (@set_station_coords decimal_builtins all_delivered
               (of_ascii "60,north") initial_state)) =
    [BadFormat StationCoords].
Proof.
  destruct (@set_station_coords_partial_update decimal_builtins all_delivered
              (of_ascii "60,north") (of_ascii "60") (of_ascii "north")
              (FFin (inject_Z 60)) initial_state
              eq_refl eq_refl eq_refl) as [Hworld [Hanswer _]].
  destruct (Hanswer eq_refl) as [Hstate Hsent].
  split; [exact Hworld |]. split; [exact Hstate | exact Hsent].
Defined.

Lemma undelivered_confirmation_reported_as_bad_format_witness :
  @set_notify_minutes decimal_builtins first_call_lost
     (of_ascii " 30 ") initial_state =
    (Return SET_NOTIFY_MINUTES,
     {| hworld := set_NOTIFY_MINUTES 30%Z default_world;
        sent := [BadFormat NotifyMinutes];
        api_calls := 2 |}).
Proof.
  apply (@undelivered_confirmation_reported_as_bad_format decimal_builtins
           first_call_lost (of_ascii " 30 ") 30%Z (Exn 5) initial_state);
    reflexivity.
Defined.

Lemma set_tle_url_scheme_witness :
  hworld (snd (@set_tle_url all_delivered
                 (of_ascii " https://example.org/tle.txt ") initial_state)) =
    set_TLE_URL (of_ascii "https://example.org/tle.txt") default_world /\
  hworld (snd (@set_tle_url all_delivered
                 (of_ascii "ftp://example.org/tle.txt") initial_state)) =
    default_world.
Proof.
  split.
  - apply (proj1 (@set_tle_url_scheme all_delivered
                    (of_ascii " https://example.org/tle.txt ")
                    initial_state)).
    exists (of_ascii "example.org/tle.txt"). right. reflexivity.
  - apply (proj1 (proj2 (@set_tle_url_scheme all_delivered
                           (of_ascii "ftp://example.org/tle.txt")
                           initial_state))).
    intros H. apply startswith_scheme in H. discriminate.
Defined.

Lemma set_sat_name_stripped_witness :
  substring
    (SAT_NAME (hworld (snd (@set_sat_name all_delivered
                              (of_ascii " CUBESX-HSE 3 ") initial_state))))
    (of_ascii "0  CUBESX-HSE 3  2023").
Proof.
  apply (proj2 (proj2 (proj2
           (@set_sat_name_stripped all_delivered (of_ascii " CUBESX-HSE 3 ")
              initial_state)))).
  apply contains_spec. reflexivity.
Defined.

Lemma next_pass_command_reminder_witness :
  exists j,
    job_queue (hworld (snd (@next_pass_command all_delivered sample_sky
                              42%Z 1000000%Z prompt_state))) =
    job_queue (hworld prompt_state) ++ [j].
Proof.
  apply (proj2 (proj1 (@next_pass_command_reminder all_delivered sample_sky
                         42%Z 1000000%Z prompt_state))).
  exists pass_40, [pass_20].
  split; [reflexivity |]. split; [reflexivity |].
  split; [split; reflexivity | vm_compute; reflexivity].
Defined.

Lemma next_pass_is_the_earliest_witness :
  In pass_40 [pass_40; pass_20] /\
  forall q, In q [pass_40; pass_20] -> (rise pass_40 <= rise q)%Z.
Proof.
  apply (@next_pass_is_the_earliest all_delivered sample_sky 42%Z 1000000%Z
           loaded_state pass_40 [pass_40; pass_20]).
  - exact sample_sky_chronological.
  - reflexivity.
  - left. reflexivity.
  - intros [].
Defined.

Lemma reminder_announces_current_lead_witness :
  job_queue (hworld (snd (@set_notify_minutes decimal_builtins all_delivered
                            (of_ascii "5")
                            {| hworld := snd (schedule_notification
                                                3600000000%Z 42%Z
                                                default_world);
                               sent := []; api_calls := 0 |}))) =
    [Job (total_seconds 2700000000%Z) 42%Z] /\
  sent (snd (@pass_notification all_delivered
               (Job (total_seconds 2700000000%Z) 42%Z)
               (snd (@set_notify_minutes decimal_builtins all_delivered
                       (of_ascii "5")
                       {| hworld := snd (schedule_notification
                                           3600000000%Z 42%Z default_world);
                          sent := []; api_calls := 0 |})))) =
    sent (snd (@set_notify_minutes decimal_builtins all_delivered
                 (of_ascii "5")
                 {| hworld := snd (schedule_notification
                                     3600000000%Z 42%Z default_world);
                    sent := []; api_calls := 0 |})) ++
    [Reminder 42%Z 5%Z (of_ascii "CUBESX-HSE 3")].
Proof.
  apply (@reminder_announces_current_lead decimal_builtins all_delivered
           3600000000%Z 42%Z (of_ascii "5") 5%Z default_world 0).
  - split; reflexivity.
  - vm_compute. reflexivity.
  - reflexivity.
  - reflexivity.
Defined.

Lemma default_world_well_kept : well_kept default_world.
Proof.
  split; [| split].
  - exists (of_ascii "celestrak.org/NORAD/elements/satnogs.txt").
    left. reflexivity.
  - constructor.
  - intros H. destruct (H eq_refl).
Qed.

Lemma bot_stays_well_kept_witness :
  well_kept
    (hworld (@run decimal_builtins all_delivered sample_sky
               [ StartUp (Return (200%Z, text_complete)) Written;
                 SetTleUrl (of_ascii "ftp://example.org");
                 SetNotifyMinutes (of_ascii "5");
                 NextPassCommand 42%Z 1000000%Z;
                 Fire (Job (total_seconds 300000000%Z) 42%Z) ]
               initial_state)).
Proof.
  apply (@bot_stays_well_kept decimal_builtins all_delivered sample_sky).
  exact default_world_well_kept.
Defined.
